(** * caddy_ondemand_upstreams: the on-demand upstream process supervisor

    A shallow embedding of [process.go] ([UpstreamProcess] and its methods)
    and of the request-facing part of [ondemand_upstreams.go]
    ([Validate], [GetUpstreams], [Cleanup]).

    Conventions.
    - [time.Time] and [time.Duration] are integers counting nanoseconds, and
      [t.Add(d)] is their sum: times and durations stay far from the ends
      of the 64-bit range.
    - Every call into the operating system ([getAvailablePort], [cmd.Start],
      [Process.Signal], [cmd.Wait]) takes its answer from an [Oracle], so a
      statement quantified over oracles covers every behaviour of the
      environment.
    - [Start] and [Stop] hold [u.mu] from entry to exit; the model runs one
      call at a time, and goroutines launched with [go] wait in a pool until
      the scheduler lets them take a turn.  A turn may come at any time, so a
      statement about all runs covers every way the sleeps of the goroutines
      can end.
    - Calls to [caddy.Log] are left out. *)

From Stdlib Require Import ZArith List String Ascii Bool Lia DecimalString.
Import ListNotations.
Local Open Scope string_scope.
Local Open Scope Z_scope.

(** ** The pieces of Go's standard library the program calls *)

Module Go.

Definition Time := Z.
Definition Duration := Z.
Definition error := string.

Definition Second : Duration := 1000000000.

Inductive result (A : Type) : Type :=
| Ok (a : A)
| Err (e : error).
Arguments Ok {A} a.
Arguments Err {A} e.

(** [strconv.Itoa]: decimal digits, with a leading minus sign below zero. *)
Definition Itoa (i : Z) : string := NilZero.string_of_int (Z.to_int i).

(** [strings.HasPrefix(s, prefix)]. *)
Fixpoint HasPrefix (s prefix : string) {struct prefix} : bool :=
  match prefix with
  | EmptyString => true
  | String p prefix' =>
      match s with
      | EmptyString => false
      | String c s' => Ascii.eqb c p && HasPrefix s' prefix'
      end
  end.

(** [strings.Contains(s, substr)]: [substr] starts at some position
    of [s]. *)
Fixpoint Contains (s substr : string) : bool :=
  if HasPrefix s substr then true
  else match s with
       | EmptyString => false
       | String _ s' => Contains s' substr
       end.

(** [strings.IndexByte(s, c) >= 0]. *)
Fixpoint hasByte (c : ascii) (s : string) : bool :=
  match s with
  | EmptyString => false
  | String a s' => if Ascii.eqb a c then true else hasByte c s'
  end.

(** [net.JoinHostPort]: a host with a colon in it is taken for an IPv6
    literal and put in brackets. *)
Definition JoinHostPort (host port : string) : string :=
  if hasByte ":" host then "[" ++ host ++ "]:" ++ port
  else host ++ ":" ++ port.

(** What [doPrintf] of package fmt appends when the operand was never
    used. *)
Definition extra (argNum : nat) (a : Z) : string :=
  match argNum with
  | O => "%!(EXTRA int=" ++ Itoa a ++ ")"
  | S _ => ""
  end.

(** [fmt.Sprintf(format, a)] with the single operand [a] of type [int],
    for the formats whose directives are [%d] and [%%]; [argNum] counts the
    operands consumed so far, as in [doPrintf] of package fmt.  A [%d] met
    while the operand is unused prints it in decimal; a [%d] met afterwards
    prints the missing-operand marker; [%%] prints a percent sign; a
    percent sign at the very end prints the no-verb marker; an operand left
    unused at the end is reported after the text.  Any other directive
    (flags, width, precision, argument index, other verbs) is outside this
    fragment: [None]. *)
Fixpoint doPrintf (format : string) (argNum : nat) (a : Z) : option string :=
  match format with
  | EmptyString => Some (extra argNum a)
  | String c rest =>
      if Ascii.eqb c "%" then
        match rest with
        | EmptyString => Some ("%!(NOVERB)" ++ extra argNum a)
        | String verb rest' =>
            if Ascii.eqb verb "d" then
              match argNum with
              | O => option_map (append (Itoa a)) (doPrintf rest' 1 a)
              | S _ => option_map (append "%!d(MISSING)")
                         (doPrintf rest' argNum a)
              end
            else if Ascii.eqb verb "%" then
              option_map (String "%") (doPrintf rest' argNum a)
            else None
        end
      else option_map (String c) (doPrintf rest argNum a)
  end.

(** The whole of [fmt.Sprintf] on one [int] operand: [doPrintf] on its
    fragment, and [other] (the library's behaviour on the remaining
    directives, which this development does not describe) elsewhere. *)
Definition Sprintf (other : string -> Z -> string) (format : string) (a : Z)
  : string :=
  match doPrintf format 0 a with
  | Some s => s
  | None => other format a
  end.

End Go.
Import Go.

Arguments Itoa : simpl never.
Arguments JoinHostPort : simpl never.

(** ** Data model *)

(** [os.Process]. *)
Record os_Process := { Pid : Z }.

(** [exec.Cmd]: [Process] is nil until [cmd.Start] has succeeded. *)
Record Cmd := {
  Args : list string;
  Dir : string;
  Env : list string;
  Process : option os_Process
}.

(** [UpstreamProcess] of process.go; the mutex [mu] is the atomicity of the
    calls. *)
Record UpstreamProcess := {
  cmd : option Cmd;
  command : string;
  port : Z;
  dir : string;
  env : list (string * string);
  startupDelay : Duration;
  idleTimeout : Duration;
  terminationGracePeriod : Duration;
  lastActivity : Time
}.

(** [OndemandUpstreams] of ondemand_upstreams.go. *)
Record OndemandUpstreams := {
  Command : string;
  StartupDelay : Duration;
  Port : Z;
  IdleTimeout : Duration;
  upstreamProcess : option UpstreamProcess
}.

(** [reverseproxy.Upstream], of which only [Dial] is set. *)
Record Upstream := { Dial : string }.

Definition set_cmd (c : option Cmd) (u : UpstreamProcess) : UpstreamProcess :=
  {| cmd := c; command := command u; port := port u; dir := dir u;
     env := env u; startupDelay := startupDelay u;
     idleTimeout := idleTimeout u;
     terminationGracePeriod := terminationGracePeriod u;
     lastActivity := lastActivity u |}.

Definition set_port (p : Z) (u : UpstreamProcess) : UpstreamProcess :=
  {| cmd := cmd u; command := command u; port := p; dir := dir u;
     env := env u; startupDelay := startupDelay u;
     idleTimeout := idleTimeout u;
     terminationGracePeriod := terminationGracePeriod u;
     lastActivity := lastActivity u |}.

Definition set_lastActivity (t : Time) (u : UpstreamProcess) : UpstreamProcess :=
  {| cmd := cmd u; command := command u; port := port u; dir := dir u;
     env := env u; startupDelay := startupDelay u;
     idleTimeout := idleTimeout u;
     terminationGracePeriod := terminationGracePeriod u;
     lastActivity := t |}.

Definition set_upstreamProcess (u : option UpstreamProcess)
    (o : OndemandUpstreams) : OndemandUpstreams :=
  {| Command := Command o; StartupDelay := StartupDelay o; Port := Port o;
     IdleTimeout := IdleTimeout o; upstreamProcess := u |}.

(** ** The world outside the supervisor *)

(** The two goroutines the program launches: the idle watcher of [Start] and
    the grace-period killer of [Stop]. *)
Inductive Task := IdleMonitor | GraceKiller.

(** What the supervisor does to its environment, in order. *)
Inductive Event :=
| EvGetAvailablePort                (* getAvailablePort() was called *)
| EvCmdStart (args : list string)   (* cmd.Start() on exec.Command(args...) *)
| EvSleep (d : Duration)            (* time.Sleep(d) on the calling thread *)
| EvGo (id : nat) (t : Task)        (* a go statement; id names the goroutine *)
| EvSignal (pid : Z)                (* Process.Signal(os.Interrupt) *)
| EvWait (pid : Z)                  (* cmd.Wait() *)
| EvKill (pid : Z)                  (* Process.Kill() *)
| EvIdleStop (id : nat)             (* the idle watcher id calls u.Stop() *)
| EvExit (id : nat).                (* the goroutine id has returned *)

(** One answer for each call into the operating system a method can make. *)
Record Oracle := {
  port_result : result Z;         (* getAvailablePort() *)
  start_result : result Z;        (* cmd.Start(): the new pid, or its error *)
  signal_result : option error;   (* Process.Signal(os.Interrupt) *)
  wait_result : option error;     (* cmd.Wait() *)
  wait_time : Duration            (* how long cmd.Wait() blocks *)
}.

Record World := {
  clock : Time;
  trace : list Event;
  goroutines : list (nat * Task);
  next_id : nat;
  panicked : bool
}.

(** A method with receiver of type [R] and a result of type [A]. *)
Definition M (R A : Type) : Type := R -> World -> A * R * World.

Definition ret {R A} (a : A) : M R A := fun s w => (a, s, w).

Definition bind {R A B} (m : M R A) (k : A -> M R B) : M R B :=
  fun s w => let '(a, s', w') := m s w in k a s' w'.

Notation "x <- m ;; k" := (bind m (fun x => k))
  (at level 61, m at next level, right associativity).
Notation "m ;; k" := (bind m (fun _ => k))
  (at level 61, right associativity).

Definition get {R} : M R R := fun s w => (s, s, w).

Definition modify {R} (f : R -> R) : M R unit := fun s w => (tt, f s, w).

(** The world after one more event. *)
Definition record (e : Event) (w : World) : World :=
  {| clock := clock w; trace := trace w ++ [e];
     goroutines := goroutines w; next_id := next_id w;
     panicked := panicked w |}.

(** The clock moves on by [d]; a negative [d] does not move it. *)
Definition advance (d : Duration) (w : World) : World :=
  {| clock := clock w + Z.max 0 d; trace := trace w;
     goroutines := goroutines w; next_id := next_id w;
     panicked := panicked w |}.

(** A goroutine joins the pool under a fresh id. *)
Definition launch (t : Task) (w : World) : World :=
  {| clock := clock w;
     trace := trace w ++ [EvGo (next_id w) t];
     goroutines := goroutines w ++ [(next_id w, t)];
     next_id := S (next_id w);
     panicked := panicked w |}.

(** A goroutine returns and leaves the pool. *)
Definition retire (id : nat) (w : World) : World :=
  {| clock := clock w;
     trace := trace w ++ [EvExit id];
     goroutines :=
       filter (fun g => negb (Nat.eqb (fst g) id)) (goroutines w);
     next_id := next_id w;
     panicked := panicked w |}.

(** A nil pointer is dereferenced: the program panics. *)
Definition crash (w : World) : World :=
  {| clock := clock w; trace := trace w;
     goroutines := goroutines w; next_id := next_id w;
     panicked := true |}.

Definition on_world {R} (f : World -> World) : M R unit :=
  fun s w => (tt, s, f w).

Definition emit {R} (e : Event) : M R unit := on_world (record e).

(** [time.Now()]. *)
Definition time_Now {R} : M R Time := fun s w => (clock w, s, w).

(** [time.Sleep(d)] on the calling thread. *)
Definition time_Sleep {R} (d : Duration) : M R unit :=
  emit (EvSleep d) ;; on_world (advance d).

(** [go func() { ... }()]. *)
Definition go {R} (t : Task) : M R unit := on_world (launch t).

(** The end of a goroutine's function. *)
Definition exit {R} (id : nat) : M R unit := on_world (retire id).

Definition panic {R} : M R unit := on_world crash.

Definition gets {R A} (f : R -> A) : M R A := fun s w => (f s, s, w).

(** [getAvailablePort()] of process.go, seen from its caller: the listener
    on localhost:0 is opened and closed inside, and the port read back (or
    the error) is the oracle's. *)
Definition getAvailablePort {R} (E : Oracle) : M R (result Z) :=
  emit EvGetAvailablePort ;; ret (port_result E).

(** [c.Start()] of os/exec. *)
Definition cmd_Start {R} (E : Oracle) (c : Cmd) : M R (result Z) :=
  emit (EvCmdStart (Args c)) ;; ret (start_result E).

(** [p.Signal(os.Interrupt)]. *)
Definition Process_Signal {R} (E : Oracle) (p : os_Process) : M R (option error) :=
  emit (EvSignal (Pid p)) ;; ret (signal_result E).

(** [c.Wait()] of os/exec: blocks until the process has exited and been
    reaped. *)
Definition cmd_Wait {R} (E : Oracle) (p : os_Process) : M R (option error) :=
  emit (EvWait (Pid p)) ;;
  on_world (advance (wait_time E)) ;;
  ret (wait_result E).

(** [p.Kill()]; the program never looks at its result. *)
Definition Process_Kill {R} (p : os_Process) : M R unit :=
  emit (EvKill (Pid p)).

(** ** process.go *)

Definition NewUpstreamProcess {R} (command : string) (port : Z) (dir : string)
    (env : list (string * string))
    (startup_delay idle_timeout termination_grace_period : Duration)
  : M R UpstreamProcess :=
  now <- time_Now ;;
  ret {| cmd := None; command := command; port := port; dir := dir;
         env := env; startupDelay := startup_delay;
         idleTimeout := idle_timeout;
         terminationGracePeriod := termination_grace_period;
         lastActivity := now |}.

Definition GetPort (u : UpstreamProcess) : Z := port u.

(** [return u.cmd != nil]. *)
Definition IsRunning (u : UpstreamProcess) : bool :=
  match cmd u with
  | Some _ => true
  | None => false
  end.

Definition LogActivity : M UpstreamProcess unit :=
  now <- time_Now ;;
  modify (set_lastActivity now).

Definition with_Process (pid : Z) (c : Cmd) : Cmd :=
  {| Args := Args c; Dir := Dir c; Env := Env c;
     Process := Some {| Pid := pid |} |}.

(** [Stop]: nothing to do without a handle; otherwise SIGINT, and only when
    it was delivered: the grace-period goroutine, [Wait], a [Kill] guarded
    by [IsRunning], and the handle is cleared.  When the signal could not be
    delivered the method returns at once. *)
Definition Stop (E : Oracle) : M UpstreamProcess unit :=
  u <- get ;;
  match cmd u with
  | None => ret tt
  | Some c =>
      match Process c with
      | None => panic            (* u.cmd.Process is nil *)
      | Some p =>
          err <- Process_Signal E p ;;
          match err with
          | None =>
              go GraceKiller ;;
              _ <- cmd_Wait E p ;;
              running <- gets IsRunning ;;
              (if running then Process_Kill p else ret tt) ;;
              modify (set_cmd None)
          | Some _ => ret tt
          end
      end
  end.

(** The goroutine of [Stop] once its [time.Sleep(u.terminationGracePeriod)]
    is over: [Kill] if there is a handle, and return.  It writes no field of
    the supervisor; a turn of it that falls into the [Wait] of [Stop] shows
    only in what the oracle answers for [Wait].  In the source its test of
    [IsRunning] and its reading of [u.cmd.Process] are two reads without
    the lock; here they are one turn, taken between the calls. *)
Definition graceKiller (id : nat) : M UpstreamProcess unit :=
  u <- get ;;
  match cmd u with
  | None => exit id
  | Some c =>
      match Process c with
      | None => panic
      | Some p => Process_Kill p ;; exit id
      end
  end.

(** One round of the loop of the goroutine of [Start], after its
    [time.Sleep(time.Second)]: [continue] while
    [u.lastActivity.Add(u.idleTimeout).After(time.Now())], otherwise
    [u.Stop()] and [break]. *)
Definition idleMonitor (E : Oracle) (id : nat) : M UpstreamProcess unit :=
  now <- time_Now ;;
  u <- get ;;
  if lastActivity u + idleTimeout u >? now then ret tt
  else emit (EvIdleStop id) ;; Stop E ;; exit id.

Section Supervisor.

(** [fmt.Sprintf(format, port)]: library code, a parameter here. *)
Variable Sprintf : string -> Z -> string.

(** [getFormattedCommand]: the command goes through [fmt.Sprintf] with the
    port as its one operand when it contains [%d], and is left alone
    otherwise. *)
Definition getFormattedCommand (u : UpstreamProcess) : string :=
  if Contains (command u) "%d" then Sprintf (command u) (port u)
  else command u.

(** [Start]: nothing to do with a handle present; otherwise a port if the
    port is -1, the handle for [sh -c command], [cmd.Start], and only when
    that succeeded: the startup delay, [LogActivity] and the idle
    watcher. *)
Definition Start (E : Oracle) : M UpstreamProcess (option error) :=
  running <- gets IsRunning ;;
  if running then ret None
  else
    u <- get ;;
    failed <- (if port u =? -1 then
                 r <- getAvailablePort E ;;
                 match r with
                 | Err e => ret (Some e)
                 | Ok p => modify (set_port p) ;; ret None
                 end
               else ret None) ;;
    match failed with
    | Some e => ret (Some e)
    | None =>
        c <- gets getFormattedCommand ;;
        u <- get ;;
        let c0 := {| Args := ["sh"; "-c"; c]; Dir := dir u;
                     Env := map (fun kv => fst kv ++ "=" ++ snd kv) (env u);
                     Process := None |} in
        modify (set_cmd (Some c0)) ;;
        r <- cmd_Start E c0 ;;
        match r with
        | Err e => ret (Some e)
        | Ok pid =>
            modify (set_cmd (Some (with_Process pid c0))) ;;
            (if startupDelay u >? 0 then time_Sleep (startupDelay u)
             else ret tt) ;;
            LogActivity ;;
            go IdleMonitor ;;
            ret None
        end
    end.

(** ** ondemand_upstreams.go *)

(** Methods of [*UpstreamProcess] called through the pointer [u] held
    in [o.upstreamProcess]. *)
Definition through {A} (u : UpstreamProcess) (m : M UpstreamProcess A)
  : M OndemandUpstreams A :=
  fun o w => let '(a, u', w') := m u w in
             (a, set_upstreamProcess (Some u') o, w').

(** [GetUpstreams].  The call site passes the command, the port, the
    startup delay and the idle timeout; the working directory, the
    environment and the grace period, which [OndemandUpstreams] does not
    have, are the zero values.  The error of [Start] is dropped; what is
    returned depends on [IsRunning] alone.  The call is run as a whole
    here; [GetUpstreams_Start] and [answer] below are its two parts, between
    which other goroutines can have turns. *)
Definition GetUpstreams (E : Oracle)
  : M OndemandUpstreams (result (list Upstream)) :=
  o <- get ;;
  u <- match upstreamProcess o with
       | None => NewUpstreamProcess (Command o) (Port o) "" []
                   (StartupDelay o) (IdleTimeout o) 0
       | Some u => ret u
       end ;;
  through u (
    _ <- Start E ;;
    running <- gets IsRunning ;;
    if running then
      LogActivity ;;
      p <- gets GetPort ;;
      ret (Ok [ {| Dial := JoinHostPort "localhost" (Itoa p) |} ])
    else ret (Err "no upstreams available")).

(** [Cleanup]: [Stop] if there is a process object and [IsRunning]; the
    error returned is nil. *)
Definition Cleanup (E : Oracle) : M OndemandUpstreams (option error) :=
  o <- get ;;
  match upstreamProcess o with
  | Some u => (if IsRunning u then through u (Stop E) else ret tt) ;; ret None
  | None => ret None
  end.

(** ** The running program *)

(** What can happen next: a request arrives, the host shuts the module
    down, a goroutine of the pool wakes from its sleep, or time passes. *)
Inductive Call :=
| CallGetUpstreams (E : Oracle)
| CallCleanup (E : Oracle)
| Wake (id : nat) (E : Oracle)
| Elapse (d : Duration).

Definition System : Type := OndemandUpstreams * World.

Definition task_of (id : nat) (w : World) : option Task :=
  option_map snd (find (fun g => Nat.eqb (fst g) id) (goroutines w)).

(** One thing happens.  After a panic nothing happens any more; a
    goroutine that is not in the pool, or that finds no process object,
    has no turn. *)
Definition step (c : Call) (s : System) : System :=
  let (o, w) := s in
  if panicked w then s
  else
    match c with
    | CallGetUpstreams E => let '(_, o', w') := GetUpstreams E o w in (o', w')
    | CallCleanup E => let '(_, o', w') := Cleanup E o w in (o', w')
    | Wake id E =>
        match task_of id w, upstreamProcess o with
        | Some IdleMonitor, Some u =>
            let '(_, o', w') := through u (idleMonitor E id) o w in (o', w')
        | Some GraceKiller, Some u =>
            let '(_, o', w') := through u (graceKiller id) o w in (o', w')
        | _, _ => s
        end
    | Elapse d => (o, advance d w)
    end.

Definition run (cs : list Call) (s : System) : System :=
  fold_left (fun s c => step c s) cs s.

End Supervisor.

(** [Validate] of ondemand_upstreams.go: the command is required, an idle
    timeout of 0 becomes 300 seconds and a port of 0 becomes -1. *)
Definition Validate (o : OndemandUpstreams) : result OndemandUpstreams :=
  if String.eqb (Command o) "" then Err "command is required"
  else
    let idle := if IdleTimeout o =? 0 then 300 * Second else IdleTimeout o in
    let p := if Port o =? 0 then -1 else Port o in
    Ok {| Command := Command o; StartupDelay := StartupDelay o; Port := p;
          IdleTimeout := idle; upstreamProcess := upstreamProcess o |}.

(** The program as the host has just loaded it: no process object yet, an
    empty pool of goroutines. *)
Definition boot (t : Time) : World :=
  {| clock := t; trace := []; goroutines := []; next_id := 0%nat;
     panicked := false |}.

(** ** What the properties are stated with *)

Definition value {R A} (x : A * R * World) : A := fst (fst x).
Definition receiver {R A} (x : A * R * World) : R := snd (fst x).
Definition world_of {R A} (x : A * R * World) : World := snd x.

(** The events a call has added to the trace of [w]. *)
Definition added (w w' : World) : list Event :=
  skipn (List.length (trace w)) (trace w').

Definition is_alloc (e : Event) : bool :=
  match e with EvGetAvailablePort => true | _ => false end.

Definition is_spawn (e : Event) : bool :=
  match e with EvCmdStart _ => true | _ => false end.

Definition is_wait (e : Event) : bool :=
  match e with EvWait _ => true | _ => false end.

Definition is_idle_stop (id : nat) (e : Event) : bool :=
  match e with EvIdleStop i => Nat.eqb i id | _ => false end.

Definition is_monitor (g : nat * Task) : bool :=
  match snd g with IdleMonitor => true | GraceKiller => false end.

(** The substitution in the words of the specification: every occurrence of
    the placeholder in the template becomes [repl]. *)
Fixpoint substitute (template repl : string) : string :=
  match template with
  | EmptyString => EmptyString
  | String c rest =>
      match rest with
      | String v rest' =>
          if Ascii.eqb c "%" && Ascii.eqb v "d" then repl ++ substitute rest' repl
          else String c (substitute rest repl)
      | EmptyString => String c EmptyString
      end
  end.

(** Every percent sign of [s] starts a [%d]. *)
Fixpoint placeholders_only (s : string) : bool :=
  match s with
  | EmptyString => true
  | String c rest =>
      if Ascii.eqb c "%" then
        match rest with
        | String v rest' => Ascii.eqb v "d" && placeholders_only rest'
        | EmptyString => false
        end
      else placeholders_only rest
  end.

(** A formatter to compute with: Go's on the fragment of [doPrintf], the
    format itself elsewhere. *)
Definition plainSprintf : string -> Z -> string :=
  Go.Sprintf (fun format _ => format).

(** A stopped supervisor with the command [c] and the port [p]. *)
Definition template_of (c : string) (p : Z) : UpstreamProcess :=
  {| cmd := None; command := c; port := p; dir := ""; env := [];
     startupDelay := 0; idleTimeout := 300 * Second;
     terminationGracePeriod := 0; lastActivity := 0 |}.

(** ** Runs of the program *)

(** How often the port allocator has been called. *)
Definition allocations (w : World) : nat :=
  List.length (filter is_alloc (trace w)).

(** How often the idle watcher [id] has called [Stop]. *)
Definition idle_stops (id : nat) (w : World) : nat :=
  List.length (filter (is_idle_stop id) (trace w)).

Definition is_any_idle_stop (e : Event) : bool :=
  match e with EvIdleStop _ => true | _ => false end.

(** [w'] comes after [w] without a call of [Stop] by an idle watcher and
    without a goroutine of [w] leaving: watchers' calls are counted as
    before, goroutines known to [w] are as before, and new ones carry ids
    unused in [w]. *)
Definition benign (w w' : World) : Prop :=
  (forall id, idle_stops id w' = idle_stops id w) /\
  (next_id w <= next_id w')%nat /\
  (forall id, (id < next_id w)%nat -> task_of id w' = task_of id w) /\
  (forall g, In g (goroutines w') ->
             In g (goroutines w) \/ (next_id w <= fst g < next_id w')%nat).

(** [w'] comes after [w] without a call of the port allocator. *)
Definition quiet (w w' : World) : Prop :=
  allocations w' = allocations w.

(** Ids in the pool have been handed out, and an idle watcher that has
    called [Stop] has done so once and is gone. *)
Definition tidy (w : World) : Prop :=
  (forall g, In g (goroutines w) -> (fst g < next_id w)%nat) /\
  (forall id, idle_stops id w = 0%nat \/
              (idle_stops id w = 1%nat /\ (id < next_id w)%nat /\
               task_of id w = None)).

Arguments Start : simpl never.
Arguments Stop : simpl never.

(** The process object [GetUpstreams] works on: the one at hand, or the
    one it makes. *)
Definition the_process (o : OndemandUpstreams) (now : Time) : UpstreamProcess :=
  match upstreamProcess o with
  | Some u => u
  | None =>
      {| cmd := None; command := Command o; port := Port o; dir := "";
         env := []; startupDelay := StartupDelay o;
         idleTimeout := IdleTimeout o; terminationGracePeriod := 0;
         lastActivity := now |}
  end.

(** The supervisor has a process object, and its port is [p]. *)
Definition ported (p : Z) (s : System) : Prop :=
  exists u, upstreamProcess (fst s) = Some u /\ port u = p.

(** ** Concrete programs and environments *)

(** An environment in which everything works. *)
Definition obliging : Oracle :=
  {| port_result := Ok 40001; start_result := Ok 4242;
     signal_result := None; wait_result := None; wait_time := 5000000 |}.

(** [cmd.Start] fails. *)
Definition no_spawn : Oracle :=
  {| port_result := Ok 40001;
     start_result := Err "fork/exec /bin/sh: resource temporarily unavailable";
     signal_result := None; wait_result := None; wait_time := 5000000 |}.

(** The port allocator fails. *)
Definition no_port : Oracle :=
  {| port_result := Err "listen tcp 127.0.0.1:0: socket: too many open files";
     start_result := Ok 4242;
     signal_result := None; wait_result := None; wait_time := 5000000 |}.

(** The process has exited by itself: the signal cannot be delivered. *)
Definition no_signal : Oracle :=
  {| port_result := Ok 40001; start_result := Ok 4242;
     signal_result := Some "os: process already finished";
     wait_result := None; wait_time := 0 |}.

(** The signal is delivered and [Wait] fails. *)
Definition no_reap : Oracle :=
  {| port_result := Ok 40001; start_result := Ok 4242;
     signal_result := None;
     wait_result := Some "wait: no child processes"; wait_time := 0 |}.

(** A fixed port and a command without placeholder. *)
Definition sleeper : OndemandUpstreams :=
  {| Command := "sleep 60"; StartupDelay := 0; Port := 9999;
     IdleTimeout := 10 * Second; upstreamProcess := None |}.

(** Automatic port assignment, and an idle timeout of -1. *)
Definition server : OndemandUpstreams :=
  {| Command := "serve --http :%d"; StartupDelay := Second; Port := -1;
     IdleTimeout := -1; upstreamProcess := None |}.

(** A supervisor whose process 4242 is alive, with an idle timeout of -1. *)
Definition live : UpstreamProcess :=
  {| cmd := Some {| Args := ["sh"; "-c"; "sleep 60"]; Dir := ""; Env := [];
                    Process := Some {| Pid := 4242 |} |};
     command := "sleep 60"; port := 9999; dir := ""; env := [];
     startupDelay := 0; idleTimeout := -1; terminationGracePeriod := 0;
     lastActivity := 0 |}.


(** No idle watcher is left in the pool. *)
Definition monitor_free (w : World) : bool :=
  forallb (fun g => negb (is_monitor g)) (goroutines w).

(** A configuration as it is parsed when only the command is given. *)
Definition unset : OndemandUpstreams :=
  {| Command := "sleep 60"; StartupDelay := 0; Port := 0;
     IdleTimeout := 0; upstreamProcess := None |}.

(** A supervisor whose process 4242 is alive, with an idle timeout of ten
    seconds. *)
Definition busy : UpstreamProcess :=
  {| cmd := Some {| Args := ["sh"; "-c"; "sleep 60"]; Dir := ""; Env := [];
                    Process := Some {| Pid := 4242 |} |};
     command := "sleep 60"; port := 9999; dir := ""; env := [];
     startupDelay := 0; idleTimeout := 10 * Second;
     terminationGracePeriod := 0; lastActivity := 0 |}.

(** The module around [busy]. *)
Definition hosting : OndemandUpstreams :=
  {| Command := "sleep 60"; StartupDelay := 0; Port := 9999;
     IdleTimeout := 10 * Second; upstreamProcess := Some busy |}.

(** The world at time [t] with the idle watcher of [busy] in the pool. *)
Definition watched (t : Time) : World :=
  {| clock := t; trace := [EvCmdStart ["sh"; "-c"; "sleep 60"];
                           EvGo 0 IdleMonitor];
     goroutines := [(0%nat, IdleMonitor)]; next_id := 1%nat;
     panicked := false |}.

(** An environment in which everything works and the new process is
    4243. *)
Definition obliging_again : Oracle :=
  {| port_result := Ok 40002; start_result := Ok 4243;
     signal_result := None; wait_result := None; wait_time := 5000000 |}.

(** ** A request in two parts *)

(** [GetUpstreams] gives up the lock of [Start] before it looks at
    [IsRunning]: what other goroutines do in between counts for its answer.
    Here are its two parts, and runs in which the parts of several requests
    and everything else take turns. *)

Section Interleaving.

Variable Sprintf : string -> Z -> string.

(** Lines 196 to 201 of ondemand_upstreams.go: the process object is made
    if there is none, and [Start] is called; its error is dropped. *)
Definition GetUpstreams_Start (E : Oracle) : M OndemandUpstreams unit :=
  o <- get ;;
  u <- match upstreamProcess o with
       | None => NewUpstreamProcess (Command o) (Port o) "" []
                   (StartupDelay o) (IdleTimeout o) 0
       | Some u => ret u
       end ;;
  through u (_ <- Start Sprintf E ;; ret tt).

(** Lines 203 to 213, on the process object as they find it. *)
Definition answer : M UpstreamProcess (result (list Upstream)) :=
  running <- gets IsRunning ;;
  if running then
    LogActivity ;;
    p <- gets GetPort ;;
    ret (Ok [ {| Dial := JoinHostPort "localhost" (Itoa p) |} ])
  else ret (Err "no upstreams available").

(** A turn in a run: a whole call as in [step], the first part of a
    request, or the second part of a request whose first part has been
    run. *)
Inductive Turn :=
| Whole (c : Call)
| Started (E : Oracle)
| Answered.

Definition turn (t : Turn) (s : System) : System :=
  match t with
  | Whole c => step Sprintf c s
  | Started E =>
      if panicked (snd s) then s
      else (receiver (GetUpstreams_Start E (fst s) (snd s)),
            world_of (GetUpstreams_Start E (fst s) (snd s)))
  | Answered =>
      if panicked (snd s) then s
      else
        match upstreamProcess (fst s) with
        | Some u =>
            (set_upstreamProcess (Some (receiver (answer u (snd s)))) (fst s),
             world_of (answer u (snd s)))
        | None => (fst s, crash (snd s))   (* o.upstreamProcess is nil *)
        end
  end.

Definition turns (ts : list Turn) (s : System) : System :=
  fold_left (fun s t => turn t s) ts s.

End Interleaving.

(** ** Conditions on programs, environments and runs *)

(** The environment of a request lets [cmd.Start] succeed. *)
Definition spawn_ok (c : Call) : bool :=
  match c with
  | CallGetUpstreams E =>
      match start_result E with
      | Ok _ => true
      | Err _ => false
      end
  | _ => true
  end.


(** The environment of the turn lets [cmd.Start] succeed. *)
Definition spawns (t : Turn) : bool :=
  match t with
  | Whole c => spawn_ok c
  | Started E =>
      match start_result E with
      | Ok _ => true
      | Err _ => false
      end
  | Answered => true
  end.

(** A handle, where there is one, has its process. *)
Definition sane (o : OndemandUpstreams) : Prop :=
  forall u c, upstreamProcess o = Some u -> cmd u = Some c -> Process c <> None.

(** The last activity does not lie in the future. *)
Definition timely (s : System) : Prop :=
  forall u, upstreamProcess (fst s) = Some u -> lastActivity u <= clock (snd s).

(** The module is configured as [o0] is, and its process object, if it has
    one, has the command, the startup delay and the idle timeout of that
    configuration, and its port when that is a fixed one. *)
Definition configured (o0 : OndemandUpstreams) (s : System) : Prop :=
  Command (fst s) = Command o0 /\
  StartupDelay (fst s) = StartupDelay o0 /\
  Port (fst s) = Port o0 /\
  IdleTimeout (fst s) = IdleTimeout o0 /\
  forall u, upstreamProcess (fst s) = Some u ->
            command u = Command o0 /\
            startupDelay u = StartupDelay o0 /\
            idleTimeout u = IdleTimeout o0 /\
            (Port o0 <> -1 -> port u = Port o0).

(** Idle watchers in the pool. *)
Definition monitors (w : World) : nat :=
  List.length (filter is_monitor (goroutines w)).

Definition is_go_monitor (e : Event) : bool :=
  match e with EvGo _ IdleMonitor => true | _ => false end.

(** Idle watchers launched so far. *)
Definition launched (w : World) : nat :=
  List.length (filter is_go_monitor (trace w)).

(** Calls of [Stop] by idle watchers so far. *)
Definition all_idle_stops (w : World) : nat :=
  List.length (filter is_any_idle_stop (trace w)).

(** The ids of the pool are distinct and have been handed out, and the
    watchers in the pool and the watchers' calls of [Stop] add up to the
    watchers launched, [k] calls being ahead of the watcher's return. *)
Definition balanced (k : nat) (w : World) : Prop :=
  NoDup (map fst (goroutines w)) /\
  (forall g, In g (goroutines w) -> (fst g < next_id w)%nat) /\
  (monitors w + all_idle_stops w = launched w + k)%nat.

(** * Properties *)

(** ** The library fragment and the configuration *)

Example Itoa_9999 : Itoa 9999 = "9999".
Proof. reflexivity. Qed.

Example JoinHostPort_localhost : JoinHostPort "localhost" "9999" = "localhost:9999".
Proof. reflexivity. Qed.

Example doPrintf_one : doPrintf "serve --http :%d" 0 8080 = Some "serve --http :8080".
Proof. reflexivity. Qed.

Example doPrintf_percent : doPrintf "100%% %d" 0 7 = Some "100% 7".
Proof. reflexivity. Qed.

(** [Validate] lets an idle timeout of -1 through, with and without a
    port. *)
Example Validate_keeps_disabled_timeout :
  Validate server = Ok server /\
  Validate {| Command := "sleep 60"; StartupDelay := 0; Port := 9999;
              IdleTimeout := -1; upstreamProcess := None |}
  = Ok {| Command := "sleep 60"; StartupDelay := 0; Port := 9999;
          IdleTimeout := -1; upstreamProcess := None |}.
Proof. split; reflexivity. Qed.

(** ** Running a call *)

(** Unfolds a method down to the receiver and the world it returns, the
    world as a composition of [record], [advance], [launch], [retire] and
    [crash]. *)
Ltac exec_calls :=
  unfold value, receiver, world_of;
  unfold GetUpstreams, Cleanup, idleMonitor, graceKiller;
  unfold through, Start, Stop;
  unfold LogActivity, NewUpstreamProcess, getAvailablePort, cmd_Start,
    cmd_Wait, Process_Signal, Process_Kill, time_Sleep;
  unfold time_Now, go, exit, panic, emit, on_world, modify, gets, get, bind,
    ret, IsRunning, GetPort;
  cbn [cmd command port dir env startupDelay idleTimeout
       terminationGracePeriod lastActivity set_cmd set_port set_lastActivity
       set_upstreamProcess upstreamProcess Command StartupDelay Port
       IdleTimeout fst snd Args Process Pid with_Process].

(** The same, with the worlds written out. *)
Ltac exec :=
  exec_calls;
  unfold added, record, advance, launch, retire, crash;
  cbn [cmd command port dir env startupDelay idleTimeout
       terminationGracePeriod lastActivity set_cmd set_port set_lastActivity
       set_upstreamProcess upstreamProcess Command StartupDelay Port
       IdleTimeout clock trace goroutines next_id panicked
       fst snd Args Process Pid with_Process].

Lemma skipn_app_exact {A} (l l' : list A) :
  skipn (List.length l) (l ++ l')%list = l'.
Proof. induction l; simpl; auto. Qed.

Lemma skipn_app_more {A} (l l' : list A) (n : nat) :
  skipn (List.length l + n) (l ++ l')%list = skipn n l'.
Proof. induction l; simpl; auto. Qed.

(** Computes the events added by a call whose trace is known. *)
Ltac added_events :=
  rewrite <- ?app_assoc;
  rewrite ?length_app, ?skipn_app_more, ?skipn_app_exact, ?skipn_all;
  cbn.

(** ** Spawn failure *)

(** C1. When [cmd.Start] fails, [Start] hands that error to its caller, but
    the handle assigned before the attempt stays in [u.cmd]: [IsRunning]
    answers true, and the next [Start] returns nil without touching the
    world, so no new spawn is attempted. *)
Theorem Start_spawn_failure_keeps_handle :
  forall Sprintf E u w e,
    IsRunning u = false ->
    match port_result E with Err _ => port u <> -1 | Ok _ => True end ->
    start_result E = Err e ->
    let r := Start Sprintf E u w in
    value r = Some e /\
    IsRunning (receiver r) = true /\
    existsb is_spawn (added w (world_of r)) = true /\
    forall E' w', Start Sprintf E' (receiver r) w' = (None, receiver r, w').
Proof.
  intros Sprintf E u w e Hrun Hport Hspawn r; subst r.
  unfold IsRunning in Hrun. destruct (cmd u) eqn:Hcmd; [discriminate|].
  exec. rewrite Hcmd.
  destruct (port u =? -1) eqn:Hp.
  - destruct (port_result E) eqn:Hr.
    + cbn. rewrite Hspawn. cbn. rewrite <- !app_assoc, skipn_app_exact. auto.
    + apply Z.eqb_eq in Hp. contradiction.
  - cbn. rewrite Hspawn. cbn. rewrite skipn_app_exact. auto.
Qed.

Lemma Start_spawn_failure_witness :
  let r := Start plainSprintf no_spawn (template_of "sleep 60" 9999) (boot 0) in
  value r = Some "fork/exec /bin/sh: resource temporarily unavailable" /\
  IsRunning (receiver r) = true /\
  existsb is_spawn (added (boot 0) (world_of r)) = true /\
  forall E' w', Start plainSprintf E' (receiver r) w' = (None, receiver r, w').
Proof.
  exact (Start_spawn_failure_keeps_handle plainSprintf no_spawn
           (template_of "sleep 60" 9999) (boot 0) _ eq_refl I eq_refl).
Defined.

(** X15. The other failure of [Start], that of the port allocator: [Start]
    returns the allocator's error, spawns nothing, and leaves the
    supervisor as it was, without a handle. *)
Lemma Start_allocation_failure_stays_stopped :
  forall Sprintf E u w e,
    IsRunning u = false ->
    port u = -1 ->
    port_result E = Err e ->
    let r := Start Sprintf E u w in
    value r = Some e /\ receiver r = u /\ IsRunning (receiver r) = false /\
    added w (world_of r) = [EvGetAvailablePort].
Proof.
  intros Sprintf E u w e Hrun Hport Halloc r; subst r.
  unfold IsRunning in Hrun. destruct (cmd u) eqn:Hcmd; [discriminate|].
  exec. rewrite Hcmd, Hport. cbn. rewrite Halloc. cbn.
  rewrite Hcmd. added_events. auto.
Qed.

Lemma Start_allocation_failure_witness :
  let r := Start plainSprintf no_port (template_of "serve --http :%d" (-1))
             (boot 0) in
  value r = Some "listen tcp 127.0.0.1:0: socket: too many open files" /\
  receiver r = template_of "serve --http :%d" (-1) /\
  IsRunning (receiver r) = false /\
  added (boot 0) (world_of r) = [EvGetAvailablePort].
Proof.
  exact (Start_allocation_failure_stays_stopped plainSprintf no_port
           (template_of "serve --http :%d" (-1)) (boot 0) _
           eq_refl eq_refl eq_refl).
Defined.


(** C2. A first request whose spawn fails still gets a dial address: the
    error of [Start] is dropped and [IsRunning] sees the handle that was
    assigned before the attempt, although no process stands behind it. *)
Theorem GetUpstreams_dials_failed_spawn :
  forall Sprintf E o w e,
    upstreamProcess o = None ->
    Port o <> -1 ->
    start_result E = Err e ->
    let r := GetUpstreams Sprintf E o w in
    value r = Ok [ {| Dial := JoinHostPort "localhost" (Itoa (Port o)) |} ] /\
    existsb is_spawn (added w (world_of r)) = true /\
    exists u c, upstreamProcess (receiver r) = Some u /\
                cmd u = Some c /\ Process c = None.
Proof.
  intros Sprintf E o w e Hnil Hport Hspawn r; subst r.
  exec. rewrite Hnil. cbn.
  apply Z.eqb_neq in Hport. rewrite Hport. cbn.
  rewrite Hspawn. cbn. rewrite skipn_app_exact.
  repeat split; auto.
  eexists _, _. repeat split; reflexivity.
Qed.

Lemma GetUpstreams_dials_failed_spawn_witness :
  let r := GetUpstreams plainSprintf no_spawn sleeper (boot 0) in
  value r = Ok [ {| Dial := "localhost:9999" |} ] /\
  existsb is_spawn (added (boot 0) (world_of r)) = true /\
  exists u c, upstreamProcess (receiver r) = Some u /\
              cmd u = Some c /\ Process c = None.
Proof.
  refine (GetUpstreams_dials_failed_spawn plainSprintf no_spawn sleeper
            (boot 0) _ eq_refl _ eq_refl).
  cbn. discriminate.
Defined.

(** After a failed spawn the shutdown of the host runs into the handle
    without process. *)
Example Cleanup_after_failed_spawn :
  let s := run plainSprintf [CallGetUpstreams no_spawn; CallCleanup obliging]
             (sleeper, boot 0) in
  panicked (snd s) = true.
Proof. reflexivity. Qed.

(** X13. A spawn that succeeds: [Start] returns nil with the process in the
    handle, the caller has been held for the startup delay, the last
    activity is the moment of return, and one idle watcher is launched. *)
Lemma Start_success :
  forall Sprintf E u w pid,
    IsRunning u = false ->
    port u <> -1 ->
    start_result E = Ok pid ->
    let r := Start Sprintf E u w in
    value r = None /\
    (exists c, cmd (receiver r) = Some c /\ Process c = Some {| Pid := pid |}) /\
    clock (world_of r) = clock w + Z.max 0 (startupDelay u) /\
    lastActivity (receiver r) = clock (world_of r) /\
    added w (world_of r) =
      (EvCmdStart ["sh"; "-c"; getFormattedCommand Sprintf u]
       :: (if startupDelay u >? 0 then [EvSleep (startupDelay u)] else [])
       ++ [EvGo (next_id w) IdleMonitor])%list.
Proof.
  intros Sprintf E u w pid Hrun Hport Hspawn r; subst r.
  unfold IsRunning in Hrun. destruct (cmd u) eqn:Hcmd; [discriminate|].
  apply Z.eqb_neq in Hport.
  exec. rewrite Hcmd, Hport. cbn. rewrite Hspawn. cbn.
  destruct (startupDelay u >? 0) eqn:Hdelay; cbn; added_events.
  - repeat split; eauto.
  - repeat split; eauto.
    rewrite Z.gtb_ltb in Hdelay. apply Z.ltb_ge in Hdelay. lia.
Qed.

Lemma Start_success_witness :
  let r := Start plainSprintf obliging (template_of "sleep 60" 9999) (boot 0) in
  value r = None /\
  (exists c, cmd (receiver r) = Some c /\ Process c = Some {| Pid := 4242 |}) /\
  clock (world_of r) = 0 /\
  lastActivity (receiver r) = clock (world_of r) /\
  added (boot 0) (world_of r) =
    [EvCmdStart ["sh"; "-c"; "sleep 60"]; EvGo 0 IdleMonitor].
Proof.
  refine (Start_success plainSprintf obliging (template_of "sleep 60" 9999)
            (boot 0) 4242 eq_refl _ eq_refl).
  cbn. discriminate.
Defined.


(** When the port allocator fails, the request is answered with the error
    of [GetUpstreams], and nothing is spawned. *)
Example GetUpstreams_without_port :
  let r := GetUpstreams plainSprintf no_port server (boot 0) in
  value r = Err "no upstreams available" /\
  added (boot 0) (world_of r) = [EvGetAvailablePort].
Proof. split; reflexivity. Qed.

(** ** Termination *)

(** X14. When the signal is delivered, [Stop] launches the grace-period
    goroutine, waits for the process, whatever [Wait] answers, kills it
    in any case after the wait, and clears the handle, changing nothing
    else of the supervisor. *)
Lemma Stop_delivered_signal_clears_handle :
  forall E u w c p,
    cmd u = Some c ->
    Process c = Some p ->
    signal_result E = None ->
    let r := Stop E u w in
    receiver r = set_cmd None u /\
    added w (world_of r) =
      [EvSignal (Pid p); EvGo (next_id w) GraceKiller; EvWait (Pid p);
       EvKill (Pid p)].
Proof.
  intros E u w c p Hcmd Hproc Hsig r; subst r.
  exec. rewrite Hcmd, Hproc. cbn. rewrite Hsig. cbn. rewrite Hcmd. cbn.
  added_events. auto.
Qed.

Lemma Stop_delivered_signal_witness :
  let r := Stop obliging live (boot 0) in
  receiver r = set_cmd None live /\
  added (boot 0) (world_of r) =
    [EvSignal 4242; EvGo 0 GraceKiller; EvWait 4242; EvKill 4242].
Proof.
  exact (Stop_delivered_signal_clears_handle obliging live (boot 0) _ _
           eq_refl eq_refl eq_refl).
Defined.


(** C3. On a live process whose SIGINT cannot be delivered, [Stop] returns
    without a panic, but it returns early: nothing is waited for, and the
    supervisor is left exactly as it was, handle included, so [IsRunning]
    still answers true. *)
Theorem Stop_undelivered_signal_keeps_handle :
  forall E u w c p e,
    cmd u = Some c ->
    Process c = Some p ->
    signal_result E = Some e ->
    let r := Stop E u w in
    receiver r = u /\
    IsRunning (receiver r) = true /\
    added w (world_of r) = [EvSignal (Pid p)] /\
    existsb is_wait (added w (world_of r)) = false /\
    panicked (world_of r) = panicked w.
Proof.
  intros E u w c p e Hcmd Hproc Hsig r; subst r.
  exec. rewrite Hcmd, Hproc. cbn. rewrite Hsig. cbn.
  rewrite Hcmd, skipn_app_exact. auto.
Qed.

Lemma Stop_undelivered_signal_witness :
  let r := Stop no_signal live (boot 0) in
  receiver r = live /\
  IsRunning (receiver r) = true /\
  added (boot 0) (world_of r) = [EvSignal 4242] /\
  existsb is_wait (added (boot 0) (world_of r)) = false /\
  panicked (world_of r) = false.
Proof.
  exact (Stop_undelivered_signal_keeps_handle no_signal live (boot 0)
           _ _ _ eq_refl eq_refl eq_refl).
Defined.

(** C8. When the signal is delivered and [Wait] then fails, [Stop] goes on
    all the same: the handle is cleared, so the supervisor is stopped, and a
    later [Start] whose spawn succeeds runs a new process under a new
    handle. *)
Theorem Stop_clears_handle_when_reap_fails :
  forall Sprintf E u w c p e,
    cmd u = Some c ->
    Process c = Some p ->
    signal_result E = None ->
    wait_result E = Some e ->
    let r := Stop E u w in
    cmd (receiver r) = None /\
    IsRunning (receiver r) = false /\
    existsb is_wait (added w (world_of r)) = true /\
    panicked (world_of r) = panicked w /\
    forall E' pid,
      match port_result E' with
      | Err _ => port u <> -1
      | Ok _ => True
      end ->
      start_result E' = Ok pid ->
      let r' := Start Sprintf E' (receiver r) (world_of r) in
      value r' = None /\
      IsRunning (receiver r') = true /\
      existsb is_spawn (added (world_of r) (world_of r')) = true /\
      exists c', cmd (receiver r') = Some c' /\
                 Process c' = Some {| Pid := pid |}.
Proof.
  intros Sprintf E u w c p e Hcmd Hproc Hsig Hwait r; subst r.
  exec. rewrite Hcmd, Hproc. cbn. rewrite Hsig. cbn. rewrite Hcmd. cbn.
  rewrite <- !app_assoc, skipn_app_exact.
  repeat split; auto.
  all: destruct (port u =? -1) eqn:Hp;
    [ destruct (port_result E') eqn:Hr;
      [ | apply Z.eqb_eq in Hp; contradiction ] | ];
    cbn; rewrite H0; cbn;
    destruct (startupDelay u >? 0); cbn;
    added_events; eauto.
Qed.

Lemma Stop_reap_failure_witness :
  let r := Stop no_reap live (boot 0) in
  cmd (receiver r) = None /\
  IsRunning (receiver r) = false /\
  existsb is_wait (added (boot 0) (world_of r)) = true /\
  panicked (world_of r) = false /\
  let r' := Start plainSprintf obliging (receiver r) (world_of r) in
  value r' = None /\
  IsRunning (receiver r') = true /\
  existsb is_spawn (added (world_of r) (world_of r')) = true /\
  exists c', cmd (receiver r') = Some c' /\
             Process c' = Some {| Pid := 4242 |}.
Proof.
  destruct (Stop_clears_handle_when_reap_fails plainSprintf no_reap live
              (boot 0) _ _ _ eq_refl eq_refl eq_refl eq_refl)
    as (H1 & H2 & H3 & H4 & H5).
  repeat split; try assumption.
  all: apply (H5 obliging 4242 I eq_refl).
Defined.

(** ** One round of the idle watcher *)

(** C4. With a negative idle timeout, -1 among them, the comparison of the
    watcher fails on its first round already, since the last activity
    never lies after the present: the watcher calls [Stop], and the live
    process is signalled, reaped and its handle cleared. *)
Theorem idleMonitor_stops_despite_disabled_timeout :
  forall E id u w c p,
    idleTimeout u < 0 ->
    lastActivity u <= clock w ->
    cmd u = Some c ->
    Process c = Some p ->
    signal_result E = None ->
    let r := idleMonitor E id u w in
    IsRunning (receiver r) = false /\
    existsb (is_idle_stop id) (added w (world_of r)) = true /\
    added w (world_of r) =
      [EvIdleStop id; EvSignal (Pid p); EvGo (next_id w) GraceKiller;
       EvWait (Pid p); EvKill (Pid p); EvExit id].
Proof.
  intros E id u w c p Hidle Hlast Hcmd Hproc Hsig r; subst r.
  exec.
  replace (lastActivity u + idleTimeout u >? clock w) with false
    by (symmetry; rewrite Z.gtb_ltb; apply Z.ltb_ge; lia).
  cbn. rewrite Hcmd, Hproc. cbn. rewrite Hsig. cbn. rewrite Hcmd. cbn.
  rewrite <- !app_assoc, skipn_app_exact. cbn.
  rewrite Nat.eqb_refl. auto.
Qed.

Lemma idleMonitor_disabled_timeout_witness :
  idleTimeout live = -1 /\
  let r := idleMonitor obliging 0 live (boot Second) in
  IsRunning (receiver r) = false /\
  existsb (is_idle_stop 0) (added (boot Second) (world_of r)) = true /\
  added (boot Second) (world_of r) =
    [EvIdleStop 0; EvSignal 4242; EvGo 0 GraceKiller;
     EvWait 4242; EvKill 4242; EvExit 0].
Proof.
  split; [reflexivity|].
  refine (idleMonitor_stops_despite_disabled_timeout obliging 0%nat live
            (boot Second) _ _ _ _ eq_refl eq_refl eq_refl).
  - cbn. lia.
  - cbn. unfold Second. lia.
Defined.

(** With the idle timeout set to -1, the first round of the watcher, one
    second after the start, stops the process. *)
Example disabled_timeout_scenario :
  let s := run plainSprintf
             [CallGetUpstreams obliging; Elapse Second; Wake 0 obliging]
             (server, boot 0) in
  option_map IsRunning (upstreamProcess (fst s)) = Some false /\
  idle_stops 0 (snd s) = 1%nat.
Proof. vm_compute. split; reflexivity. Qed.

(** ** The fast path *)



(** ** A fixed port *)

(** C6. With port 9999 configured and a command without placeholder,
    [GetUpstreams] answers with the address localhost:9999, the port
    allocator is not called, and what is spawned, if anything, is the
    command as configured. *)
Theorem GetUpstreams_fixed_port_9999 :
  forall Sprintf E o w,
    Port o = 9999 ->
    Contains (Command o) "%d" = false ->
    (forall u, upstreamProcess o = Some u ->
               port u = Port o /\ command u = Command o) ->
    let r := GetUpstreams Sprintf E o w in
    value r = Ok [ {| Dial := "localhost:9999" |} ] /\
    existsb is_alloc (added w (world_of r)) = false /\
    (forall args, In (EvCmdStart args) (added w (world_of r)) ->
                  args = ["sh"; "-c"; Command o]).
Proof.
  intros Sprintf E o w Hport Hcmd Hu r; subst r.
  exec. unfold getFormattedCommand.
  destruct (upstreamProcess o) as [u|] eqn:Hup; cbn.
  - destruct (Hu u eq_refl) as [Hp Hc]. rewrite Hport in Hp.
    destruct (cmd u) eqn:Hcu; cbn.
    + rewrite Hcu, Hp. cbn. added_events.
      repeat split; auto. intros args [].
    + repeat (progress (rewrite ?Hp, ?Hc, ?Hcmd; cbn)).
      destruct (start_result E); cbn;
        [destruct (startupDelay u >? 0); cbn|];
        rewrite ?Hp; added_events; (repeat split; auto);
        intros args Hin;
        repeat (destruct Hin as [Hin|Hin]; try discriminate; try contradiction);
        inversion Hin; reflexivity.
  - repeat (progress (rewrite ?Hport, ?Hcmd; cbn)).
    destruct (start_result E); cbn;
      [destruct (StartupDelay o >? 0); cbn|];
      added_events; (repeat split; auto);
      intros args Hin;
      repeat (destruct Hin as [Hin|Hin]; try discriminate; try contradiction);
      inversion Hin; reflexivity.
Qed.

Lemma GetUpstreams_fixed_port_witness :
  let r := GetUpstreams plainSprintf obliging sleeper (boot 0) in
  value r = Ok [ {| Dial := "localhost:9999" |} ] /\
  existsb is_alloc (added (boot 0) (world_of r)) = false /\
  (forall args, In (EvCmdStart args) (added (boot 0) (world_of r)) ->
                args = ["sh"; "-c"; "sleep 60"]).
Proof.
  refine (GetUpstreams_fixed_port_9999 plainSprintf obliging sleeper (boot 0)
            eq_refl eq_refl _).
  intros u Hu. discriminate Hu.
Defined.

(** ** The command handed to the shell *)

Lemma doPrintf_plain_prefix :
  forall pre rest n a,
    hasByte "%" pre = false ->
    doPrintf (pre ++ rest) n a = option_map (append pre) (doPrintf rest n a).
Proof.
  induction pre as [|c pre IH]; intros rest n a Hpre.
  - cbn. destruct (doPrintf rest n a); reflexivity.
  - cbn in *. destruct (Ascii.eqb c "%"); [discriminate|].
    rewrite IH by assumption.
    destruct (doPrintf rest n a); reflexivity.
Qed.

Lemma doPrintf_operand_used :
  forall s n a,
    placeholders_only s = true ->
    doPrintf s (S n) a = Some (substitute s "%!d(MISSING)").
Proof.
  fix IH 1. intros s n a Hs.
  destruct s as [|c rest]; [reflexivity|].
  cbn [doPrintf substitute placeholders_only] in *.
  destruct (Ascii.eqb c "%") eqn:Hc.
  - destruct rest as [|v rest']; [discriminate|].
    apply andb_true_iff in Hs. destruct Hs as [Hv Hs].
    rewrite Hv. cbn [andb]. rewrite (IH rest' n a Hs). reflexivity.
  - assert (Hrest : doPrintf rest (S n) a = Some (substitute rest "%!d(MISSING)"))
      by (apply IH; assumption).
    rewrite Hrest. cbn [option_map].
    destruct rest; reflexivity.
Qed.

Lemma Contains_placeholder :
  forall pre post, Contains (pre ++ "%d" ++ post) "%d" = true.
Proof.
  induction pre as [|c pre IH]; intros post.
  - reflexivity.
  - change (Contains (String c pre ++ "%d" ++ post) "%d")
      with (if HasPrefix (String c (pre ++ "%d" ++ post)) "%d" then true
            else Contains (pre ++ "%d" ++ post) "%d").
    rewrite IH.
    destruct (HasPrefix (String c (pre ++ "%d" ++ post)) "%d"); reflexivity.
Qed.

(** C7, as the code has it.  A template without a placeholder goes to the
    shell unchanged.  In a template whose percent signs all start a [%d],
    the first placeholder becomes the port, and each later one becomes the
    missing-operand marker of the formatter. *)
Theorem getFormattedCommand_first_placeholder :
  forall other u,
    (Contains (command u) "%d" = false ->
     getFormattedCommand (Go.Sprintf other) u = command u) /\
    (forall pre post,
        command u = pre ++ "%d" ++ post ->
        hasByte "%" pre = false ->
        placeholders_only post = true ->
        getFormattedCommand (Go.Sprintf other) u =
          pre ++ Itoa (port u) ++ substitute post "%!d(MISSING)").
Proof.
  intros other u. unfold getFormattedCommand. split.
  - intros H. rewrite H. reflexivity.
  - intros pre post Hcmd Hpre Hpost.
    rewrite Hcmd, Contains_placeholder. unfold Go.Sprintf.
    rewrite doPrintf_plain_prefix by assumption.
    change (doPrintf ("%d" ++ post) 0 (port u))
      with (option_map (append (Itoa (port u))) (doPrintf post 1 (port u))).
    rewrite doPrintf_operand_used by assumption.
    reflexivity.
Qed.

Lemma getFormattedCommand_first_placeholder_witness :
  getFormattedCommand plainSprintf (template_of "sleep 60" 9999) = "sleep 60" /\
  (getFormattedCommand plainSprintf
     (template_of "serve --http :%d --admin :%d" 8080) =
   "serve --http :" ++ Itoa 8080 ++
   substitute " --admin :%d" "%!d(MISSING)").
Proof.
  destruct (getFormattedCommand_first_placeholder
              (fun format _ => format) (template_of "sleep 60" 9999))
    as [Hnone _].
  destruct (getFormattedCommand_first_placeholder
              (fun format _ => format)
              (template_of "serve --http :%d --admin :%d" 8080))
    as [_ Hfirst].
  split.
  - exact (Hnone eq_refl).
  - exact (Hfirst "serve --http :" " --admin :%d" eq_refl eq_refl eq_refl).
Defined.

(** C7, as the claim has it, fails on a template with two placeholders: the
    second one does not become the port. *)
Lemma getFormattedCommand_second_placeholder :
  getFormattedCommand plainSprintf
    (template_of "serve --http :%d --admin :%d" 8080)
  = "serve --http :8080 --admin :%!d(MISSING)" /\
  substitute "serve --http :%d --admin :%d" (Itoa 8080)
  = "serve --http :8080 --admin :8080" /\
  getFormattedCommand plainSprintf
    (template_of "serve --http :%d --admin :%d" 8080)
  <> substitute (command (template_of "serve --http :%d --admin :%d" 8080))
       (Itoa (port (template_of "serve --http :%d --admin :%d" 8080))).
Proof.
  repeat split; try reflexivity.
  vm_compute. discriminate.
Qed.

(** ** Worlds along a run *)

Create HintDb worlds.

Lemma find_snoc_other {A} (f : A -> bool) (l : list A) (x : A) :
  f x = false -> find f (l ++ [x]) = find f l.
Proof.
  intros Hx. induction l as [|a l IH]; cbn.
  - rewrite Hx. reflexivity.
  - destruct (f a); auto.
Qed.

Lemma task_of_launch id t w :
  (id < next_id w)%nat -> task_of id (launch t w) = task_of id w.
Proof.
  intros Hid. unfold task_of, launch. cbn.
  rewrite find_snoc_other; [reflexivity|].
  cbn. apply Nat.eqb_neq. lia.
Qed.

Lemma task_of_retire id' id w :
  task_of id' (retire id w) =
  if Nat.eqb id' id then None else task_of id' w.
Proof.
  unfold task_of, retire. cbn.
  induction (goroutines w) as [|g l IH]; cbn.
  - destruct (Nat.eqb id' id); reflexivity.
  - destruct (Nat.eqb (fst g) id) eqn:Hg; cbn.
    + rewrite IH. destruct (Nat.eqb id' id) eqn:Hi; [reflexivity|].
      apply Nat.eqb_eq in Hg. rewrite Hg.
      rewrite Nat.eqb_sym, Hi. reflexivity.
    + destruct (Nat.eqb (fst g) id') eqn:Hg'.
      * apply Nat.eqb_eq in Hg'. subst id'. rewrite Hg. reflexivity.
      * exact IH.
Qed.

Lemma task_of_In id t w :
  task_of id w = Some t -> In (id, t) (goroutines w).
Proof.
  unfold task_of. destruct (find _ (goroutines w)) as [g|] eqn:Hf; [|discriminate].
  apply find_some in Hf. destruct Hf as [Hin Hid].
  apply Nat.eqb_eq in Hid. destruct g as [i t']. cbn in *.
  intros H. inversion H. subst. exact Hin.
Qed.

Lemma benign_refl w : benign w w.
Proof. unfold benign. repeat split; auto. Qed.

Lemma benign_record e w w' :
  is_any_idle_stop e = false -> benign w w' -> benign w (record e w').
Proof.
  intros He (Hs & Hn & Ht & Hg). unfold benign, idle_stops, task_of in *.
  cbn. repeat split; auto.
  intros id. rewrite filter_app, length_app, Hs.
  destruct e; try discriminate; cbn; lia.
Qed.

Lemma benign_advance d w w' : benign w w' -> benign w (advance d w').
Proof. intros H. exact H. Qed.

Lemma benign_crash w w' : benign w w' -> benign w (crash w').
Proof. intros H. exact H. Qed.

Lemma benign_launch t w w' : benign w w' -> benign w (launch t w').
Proof.
  intros (Hs & Hn & Ht & Hg). unfold benign. repeat split.
  - intros id. unfold idle_stops in *. cbn.
    rewrite filter_app, length_app, Hs. cbn. lia.
  - cbn. lia.
  - intros id Hid. rewrite task_of_launch by lia. auto.
  - cbn. intros g Hin. apply in_app_or in Hin. destruct Hin as [Hin|Hin].
    + destruct (Hg g Hin); [auto|right; lia].
    + destruct Hin as [<-|[]]. cbn. right. lia.
Qed.

#[export] Hint Resolve benign_refl benign_record benign_advance benign_crash
  benign_launch : worlds.

Lemma quiet_refl w : quiet w w.
Proof. reflexivity. Qed.

Lemma quiet_record e w w' :
  is_alloc e = false -> quiet w w' -> quiet w (record e w').
Proof.
  unfold quiet, allocations. intros He H. cbn.
  rewrite filter_app, length_app, H. cbn. rewrite He. cbn. lia.
Qed.

Lemma quiet_advance d w w' : quiet w w' -> quiet w (advance d w').
Proof. intros H. exact H. Qed.

Lemma quiet_crash w w' : quiet w w' -> quiet w (crash w').
Proof. intros H. exact H. Qed.

Lemma quiet_launch t w w' : quiet w w' -> quiet w (launch t w').
Proof.
  unfold quiet, allocations. intros H. cbn.
  rewrite filter_app, length_app, H. cbn. lia.
Qed.

Lemma quiet_retire id w w' : quiet w w' -> quiet w (retire id w').
Proof.
  unfold quiet, allocations. intros H. cbn.
  rewrite filter_app, length_app, H. cbn. lia.
Qed.

#[export] Hint Resolve quiet_refl quiet_record quiet_advance quiet_crash
  quiet_launch quiet_retire : worlds.

Lemma Stop_benign E u w : benign w (world_of (Stop E u w)).
Proof.
  exec_calls.
  destruct (cmd u) as [c|] eqn:Hc; cbn; auto with worlds.
  destruct (Process c) as [p|]; cbn; auto with worlds.
  destruct (signal_result E); cbn; auto with worlds.
  rewrite Hc. cbn. auto 10 with worlds.
Qed.

Lemma Stop_quiet E u w :
  quiet w (world_of (Stop E u w)) /\ port (receiver (Stop E u w)) = port u.
Proof.
  exec_calls.
  destruct (cmd u) as [c|] eqn:Hc; cbn; auto with worlds.
  destruct (Process c) as [p|]; cbn; auto with worlds.
  destruct (signal_result E); cbn; auto with worlds.
  rewrite Hc. cbn. auto 10 with worlds.
Qed.

Lemma Start_benign Sprintf E u w : benign w (world_of (Start Sprintf E u w)).
Proof.
  exec_calls.
  destruct (cmd u); cbn; auto with worlds.
  destruct (port u =? -1); cbn;
    [destruct (port_result E); cbn; auto with worlds|];
    (destruct (start_result E); cbn; auto with worlds);
    (destruct (startupDelay u >? 0); cbn; auto 10 with worlds).
Qed.

Lemma Start_quiet Sprintf E u w :
  port u <> -1 ->
  quiet w (world_of (Start Sprintf E u w)) /\
  port (receiver (Start Sprintf E u w)) = port u.
Proof.
  intros Hp. apply Z.eqb_neq in Hp.
  exec_calls.
  destruct (cmd u); cbn; auto with worlds.
  rewrite Hp. cbn.
  (destruct (start_result E); cbn; auto with worlds);
    (destruct (startupDelay u >? 0); cbn; auto 10 with worlds).
Qed.

Lemma tidy_benign w w' : tidy w -> benign w w' -> tidy w'.
Proof.
  intros [Hpool Hstops] (Hs & Hn & Ht & Hg). split.
  - intros g Hin. destruct (Hg g Hin) as [Hold|Hnew]; [|lia].
    specialize (Hpool g Hold). lia.
  - intros id. rewrite Hs. destruct (Hstops id) as [H0|(H1 & Hid & Hgone)].
    + left. exact H0.
    + right. repeat split; [exact H1|lia|]. rewrite Ht by exact Hid. exact Hgone.
Qed.

Lemma tidy_retire id w : tidy w -> tidy (retire id w).
Proof.
  intros [Hpool Hstops]. split.
  - cbn. intros g Hin. apply filter_In in Hin. apply Hpool, Hin.
  - intros id'. unfold idle_stops in *. cbn.
    rewrite filter_app, length_app. cbn. rewrite Nat.add_0_r.
    destruct (Hstops id') as [H0|(H1 & Hid & Hgone)]; [left; exact H0|].
    right. repeat split; auto.
    rewrite task_of_retire, Hgone. destruct (Nat.eqb id' id); reflexivity.
Qed.

(** The round in which the watcher [id] calls [Stop] and returns. *)
Lemma tidy_idle_stop id t w w' :
  tidy w ->
  task_of id w = Some t ->
  benign (record (EvIdleStop id) w) w' ->
  tidy (retire id w').
Proof.
  intros [Hpool Hstops] Htask (Hs & Hn & Ht & Hg).
  assert (Hid : (id < next_id w)%nat)
    by (apply task_of_In in Htask; apply Hpool in Htask; exact Htask).
  assert (Hcount : forall id', idle_stops id' w' =
                     (idle_stops id' w + if Nat.eqb id id' then 1 else 0)%nat).
  { intros id'. rewrite Hs. unfold idle_stops. cbn.
    rewrite filter_app, length_app. cbn.
    destruct (Nat.eqb id id'); reflexivity. }
  cbn in Hn, Ht, Hg. split.
  - cbn. intros g Hin. apply filter_In in Hin. destruct Hin as [Hin _].
    destruct (Hg g Hin) as [Hold|Hnew]; [|lia].
    specialize (Hpool g Hold). lia.
  - intros id'.
    assert (Hr : idle_stops id' (retire id w') = idle_stops id' w').
    { unfold idle_stops. cbn. rewrite filter_app, length_app. cbn. lia. }
    rewrite Hr, Hcount, task_of_retire, (Nat.eqb_sym id' id).
    destruct (Nat.eqb id id') eqn:Heq.
    + apply Nat.eqb_eq in Heq. subst id'.
      destruct (Hstops id) as [H0|(_ & _ & Hgone)]; [|congruence].
      right. repeat split; [lia|cbn; lia].
    + destruct (Hstops id') as [H0|(H1 & Hid' & Hgone)]; [left; lia|].
      right. repeat split; [lia|cbn; lia|].
      rewrite Ht by exact Hid'. exact Hgone.
Qed.

Lemma GetUpstreams_through_Start Sprintf E o w :
  let r := Start Sprintf E (the_process o (clock w)) w in
  world_of (GetUpstreams Sprintf E o w) = world_of r /\
  exists u', upstreamProcess (receiver (GetUpstreams Sprintf E o w)) = Some u' /\
             port u' = port (receiver r).
Proof.
  unfold GetUpstreams, through, NewUpstreamProcess, LogActivity, time_Now,
    modify, gets, get, bind, ret, the_process, value, receiver, world_of.
  destruct (upstreamProcess o) as [u|]; cbn.
  - destruct (Start Sprintf E u w) as [[r u1] w1]. cbn.
    destruct (IsRunning u1); cbn; eauto.
  - match goal with |- context [Start Sprintf E ?u w] =>
      destruct (Start Sprintf E u w) as [[r u1] w1] end.
    cbn. destruct (IsRunning u1); cbn; eauto.
Qed.

Lemma Cleanup_benign E o w : benign w (world_of (Cleanup E o w)).
Proof.
  unfold Cleanup, through, get, bind, ret, world_of.
  destruct (upstreamProcess o) as [u|]; cbn; auto with worlds.
  destruct (IsRunning u); cbn; auto with worlds.
  pose proof (Stop_benign E u w) as H. unfold world_of in H.
  destruct (Stop E u w) as [[r u1] w1]. exact H.
Qed.

Lemma step_tidy Sprintf c s : tidy (snd s) -> tidy (snd (step Sprintf c s)).
Proof.
  destruct s as [o w]. cbn [snd]. intros Hw. unfold step.
  destruct (panicked w); [exact Hw|].
  destruct c as [E|E|id E|d].
  - destruct (GetUpstreams_through_Start Sprintf E o w) as [Hworld _].
    unfold world_of in Hworld.
    destruct (GetUpstreams Sprintf E o w) as [[r o'] w']. cbn in *.
    rewrite Hworld. eapply tidy_benign; [exact Hw|apply Start_benign].
  - pose proof (Cleanup_benign E o w) as H. unfold world_of in H.
    destruct (Cleanup E o w) as [[r o'] w']. cbn in *.
    eapply tidy_benign; eauto.
  - destruct (task_of id w) as [[|]|] eqn:Htask; [| |exact Hw];
      (destruct (upstreamProcess o) as [u|]; [|exact Hw]).
    + unfold through, idleMonitor, time_Now, emit, exit, on_world, get, bind,
        ret. cbn.
      destruct (lastActivity u + idleTimeout u >? clock w); [exact Hw|].
      pose proof (Stop_benign E u (record (EvIdleStop id) w)) as H.
      unfold world_of in H.
      destruct (Stop E u (record (EvIdleStop id) w)) as [[r u1] w1]. cbn in *.
      eapply tidy_idle_stop; eauto.
    + unfold through, graceKiller, Process_Kill, emit, exit, panic, on_world,
        get, bind, ret. cbn.
      destruct (cmd u) as [c|]; cbn; [|apply tidy_retire, Hw].
      destruct (Process c); cbn.
      * apply tidy_retire. eapply tidy_benign; [exact Hw|auto with worlds].
      * exact Hw.
  - exact Hw.
Qed.

Lemma run_tidy Sprintf cs s : tidy (snd s) -> tidy (snd (run Sprintf cs s)).
Proof.
  revert s. induction cs as [|c cs IH]; intros s Hs; [exact Hs|].
  change (run Sprintf (c :: cs) s) with (run Sprintf cs (step Sprintf c s)).
  apply IH, step_tidy, Hs.
Qed.

Lemma boot_tidy t : tidy (boot t).
Proof. split; [intros g []|intros id; left; reflexivity]. Qed.

Lemma step_sticky Sprintf c s p :
  p <> -1 ->
  ported p s ->
  ported p (step Sprintf c s) /\ quiet (snd s) (snd (step Sprintf c s)).
Proof.
  destruct s as [o w]. intros Hp (u & Hu & Hpu). cbn [fst snd] in *.
  assert (Hhere : ported p (o, w)) by (exists u; auto).
  unfold step. destruct (panicked w); [auto with worlds|].
  destruct c as [E|E|id E|d].
  - destruct (GetUpstreams_through_Start Sprintf E o w) as (Hworld & u' & Hu' & Hport).
    unfold the_process in *. rewrite Hu in *.
    destruct (Start_quiet Sprintf E u w) as [Hq Hsame]; [congruence|].
    unfold world_of, receiver in *.
    destruct (GetUpstreams Sprintf E o w) as [[r o'] w']. cbn in *.
    split; [exists u'; split; [exact Hu'|congruence]|].
    rewrite Hworld. exact Hq.
  - unfold Cleanup, through, get, bind, ret. rewrite Hu.
    destruct (IsRunning u); cbn; [|auto with worlds].
    destruct (Stop_quiet E u w) as [Hq Hsame]. unfold world_of, receiver in *.
    destruct (Stop E u w) as [[r u1] w1]. cbn in *.
    split; [exists u1; split; [reflexivity|congruence]|exact Hq].
  - rewrite Hu.
    destruct (task_of id w) as [[|]|]; [| |auto with worlds].
    + unfold through, idleMonitor, time_Now, emit, exit, on_world, get, bind,
        ret. cbn.
      destruct (lastActivity u + idleTimeout u >? clock w); cbn.
      * split; [exists u; auto|auto with worlds].
      * destruct (Stop_quiet E u (record (EvIdleStop id) w)) as [Hq Hsame].
        unfold world_of, receiver in *.
        destruct (Stop E u (record (EvIdleStop id) w)) as [[r u1] w1]. cbn in *.
        split; [exists u1; split; [reflexivity|congruence]|].
        apply quiet_retire. unfold quiet in *. rewrite Hq.
        unfold allocations. cbn. rewrite filter_app, length_app. cbn. lia.
    + unfold through, graceKiller, Process_Kill, emit, exit, panic, on_world,
        get, bind, ret. cbn.
      destruct (cmd u) as [c|]; cbn;
        [destruct (Process c); cbn|];
        (split; [exists u; auto|auto 10 with worlds]).
  - split; [exact Hhere|cbn; auto with worlds].
Qed.

Lemma run_sticky Sprintf cs s p :
  p <> -1 ->
  ported p s ->
  ported p (run Sprintf cs s) /\ quiet (snd s) (snd (run Sprintf cs s)).
Proof.
  intros Hp. revert s. induction cs as [|c cs IH]; intros s Hs.
  - cbn. auto with worlds.
  - change (run Sprintf (c :: cs) s) with (run Sprintf cs (step Sprintf c s)).
    destruct (step_sticky Sprintf c s p Hp Hs) as [Hs' Hq].
    destruct (IH _ Hs') as [Hs'' Hq']. split; [exact Hs''|].
    unfold quiet in *. congruence.
Qed.

(** ** Automatic port assignment *)

(** C10. Once a request has made the allocator hand out the port [p], the
    port of the supervisor is [p] and stays [p], whatever requests,
    shutdowns, goroutine turns and lapses of time follow; the allocator,
    called once for that request, is not called again. *)
Theorem automatic_port_is_sticky :
  forall Sprintf E cs o w p,
    upstreamProcess o = None ->
    Port o = -1 ->
    panicked w = false ->
    port_result E = Ok p ->
    p <> -1 ->
    let s1 := step Sprintf (CallGetUpstreams E) (o, w) in
    let s2 := run Sprintf cs s1 in
    (exists u, upstreamProcess (fst s1) = Some u /\ port u = p) /\
    (exists u, upstreamProcess (fst s2) = Some u /\ port u = p /\ port u <> -1) /\
    allocations (snd s1) = S (allocations w) /\
    allocations (snd s2) = allocations (snd s1).
Proof.
  intros Sprintf E cs o w p Hnil Hauto Hlive Halloc Hp s1 s2.
  assert (H1 : ported p s1 /\ allocations (snd s1) = S (allocations w)).
  { subst s1 s2. unfold step. rewrite Hlive.
    exec. rewrite Hnil. cbn. rewrite Hauto. cbn. rewrite Halloc. cbn.
    unfold ported, allocations.
    destruct (start_result E); cbn;
      [destruct (StartupDelay o >? 0); cbn|];
      (split; [eexists; split; reflexivity|]);
      rewrite <- ?app_assoc, filter_app, length_app; cbn; lia. }
  destruct H1 as [Hs1 Hcount].
  destruct (run_sticky Sprintf cs s1 p Hp Hs1) as [(u & Hu & Hpu) Hq].
  repeat split; auto.
  exists u. repeat split; auto. congruence.
Qed.

Lemma automatic_port_witness :
  let s1 := step plainSprintf (CallGetUpstreams obliging) (server, boot 0) in
  let s2 := run plainSprintf
              [Elapse Second; Wake 0 obliging; CallGetUpstreams obliging;
               CallCleanup obliging; CallGetUpstreams obliging] s1 in
  (exists u, upstreamProcess (fst s1) = Some u /\ port u = 40001) /\
  (exists u, upstreamProcess (fst s2) = Some u /\ port u = 40001 /\ port u <> -1) /\
  allocations (snd s1) = 1%nat /\
  allocations (snd s2) = allocations (snd s1).
Proof.
  refine (automatic_port_is_sticky plainSprintf obliging _ server (boot 0)
            40001 eq_refl eq_refl eq_refl eq_refl _).
  discriminate.
Defined.

(** ** The idle watcher over a whole run *)

(** C5, as the code has it.  Over any run from the start of the program, an
    idle watcher calls [Stop] at most once, and once it has done so it is
    no longer in the pool.  A shutdown through [Cleanup] does not remove a
    watcher from the pool; a watcher that wakes while the idle window is
    still open changes nothing, neither of the supervisor nor of the world,
    and so stays; a watcher that wakes once the window has closed calls
    [Stop], for the only time, and leaves. *)
Theorem idleMonitor_stops_once_and_outlives_Cleanup :
  forall Sprintf cs o t id,
    let s := run Sprintf cs (o, boot t) in
    (idle_stops id (snd s) <= 1)%nat /\
    (idle_stops id (snd s) = 1%nat -> task_of id (snd s) = None) /\
    (forall E,
        task_of id (snd s) = Some IdleMonitor ->
        task_of id (snd (step Sprintf (CallCleanup E) s)) = Some IdleMonitor) /\
    (forall E u,
        task_of id (snd s) = Some IdleMonitor ->
        upstreamProcess (fst s) = Some u ->
        lastActivity u + idleTimeout u > clock (snd s) ->
        step Sprintf (Wake id E) s = s) /\
    (forall E u,
        task_of id (snd s) = Some IdleMonitor ->
        upstreamProcess (fst s) = Some u ->
        panicked (snd s) = false ->
        lastActivity u + idleTimeout u <= clock (snd s) ->
        idle_stops id (snd s) = 0%nat /\
        idle_stops id (snd (step Sprintf (Wake id E) s)) = 1%nat /\
        task_of id (snd (step Sprintf (Wake id E) s)) = None).
Proof.
  intros Sprintf cs o t id s.
  assert (Htidy : tidy (snd s)) by (apply run_tidy, boot_tidy).
  destruct s as [o' w]. cbn [fst snd] in *.
  destruct Htidy as [Hpool Hstops].
  split; [|split; [|split; [|split]]].
  - destruct (Hstops id) as [H|[H _]]; lia.
  - intros H1. destruct (Hstops id) as [H|(_ & _ & H)]; [lia|exact H].
  - intros E Htask. unfold step. destruct (panicked w); [exact Htask|].
    pose proof (Cleanup_benign E o' w) as (_ & _ & Hkeep & _).
    unfold world_of in Hkeep. destruct (Cleanup E o' w) as [[r o''] w'].
    cbn in *. rewrite Hkeep; [exact Htask|].
    apply task_of_In, Hpool in Htask. exact Htask.
  - intros E u Htask Hu Hopen. unfold step. destruct (panicked w); [reflexivity|].
    rewrite Htask, Hu.
    unfold through, idleMonitor, time_Now, get, bind, ret. cbn.
    replace (lastActivity u + idleTimeout u >? clock w) with true
      by (symmetry; rewrite Z.gtb_ltb; apply Z.ltb_lt; lia).
    destruct o' as [oc od op oi ou]. cbn in Hu. rewrite Hu. reflexivity.
  - intros E u Htask Hu Hlive Hclosed.
    assert (Hnone : idle_stops id w = 0%nat)
      by (destruct (Hstops id) as [H|(_ & _ & H)]; [exact H|congruence]).
    unfold step. rewrite Hlive, Htask, Hu.
    unfold through, idleMonitor, time_Now, emit, exit, on_world, get, bind,
      ret. cbn.
    replace (lastActivity u + idleTimeout u >? clock w) with false
      by (symmetry; rewrite Z.gtb_ltb; apply Z.ltb_ge; lia).
    pose proof (Stop_benign E u (record (EvIdleStop id) w)) as (Hs & _).
    unfold world_of in Hs.
    destruct (Stop E u (record (EvIdleStop id) w)) as [[r u1] w1]. cbn in *.
    split; [exact Hnone|split].
    + unfold idle_stops in *. cbn. rewrite filter_app, length_app, Hs. cbn.
      rewrite filter_app, length_app, Hnone. cbn. rewrite Nat.eqb_refl.
      reflexivity.
    + rewrite task_of_retire, Nat.eqb_refl. reflexivity.
Qed.

Lemma idleMonitor_stops_once_witness :
  let s := run plainSprintf
             [CallGetUpstreams obliging; Elapse Second; CallCleanup obliging]
             (sleeper, boot 0) in
  let s' := run plainSprintf
              [CallGetUpstreams obliging; Elapse Second; CallCleanup obliging;
               Elapse (10 * Second)]
              (sleeper, boot 0) in
  (idle_stops 0 (snd s) <= 1)%nat /\
  task_of 0 (snd (step plainSprintf (CallCleanup obliging) s)) = Some IdleMonitor /\
  step plainSprintf (Wake 0 obliging) s = s /\
  idle_stops 0 (snd s') = 0%nat /\
  idle_stops 0 (snd (step plainSprintf (Wake 0 obliging) s')) = 1%nat /\
  task_of 0 (snd (step plainSprintf (Wake 0 obliging) s')) = None.
Proof.
  destruct (idleMonitor_stops_once_and_outlives_Cleanup plainSprintf
              [CallGetUpstreams obliging; Elapse Second; CallCleanup obliging]
              sleeper 0 0%nat) as (H1 & _ & H3 & H4 & _).
  destruct (idleMonitor_stops_once_and_outlives_Cleanup plainSprintf
              [CallGetUpstreams obliging; Elapse Second; CallCleanup obliging;
               Elapse (10 * Second)]
              sleeper 0 0%nat) as (_ & _ & _ & _ & H5).
  split; [exact H1|split; [|split]].
  - apply (H3 obliging). reflexivity.
  - eapply (H4 obliging); reflexivity.
  - eapply (H5 obliging); [reflexivity|reflexivity|reflexivity|].
    vm_compute. discriminate.
Defined.

(** C5, as the claim has it, fails: the process is started, and a second
    later the host shuts it down through [Cleanup]; the process is stopped,
    and its idle watcher is still in the pool, where it stays when it wakes
    another second later. *)
Lemma idleMonitor_survives_Cleanup :
  let s := run plainSprintf
             [CallGetUpstreams obliging; Elapse Second; CallCleanup obliging]
             (sleeper, boot 0) in
  let s' := run plainSprintf [Elapse Second; Wake 0 obliging] s in
  option_map IsRunning (upstreamProcess (fst s)) = Some false /\
  task_of 0 (snd s) = Some IdleMonitor /\
  monitor_free (snd s) = false /\
  task_of 0 (snd s') = Some IdleMonitor /\
  monitor_free (snd s') = false.
Proof. vm_compute. repeat split. Qed.

(** ** The configuration *)

(** X1. [Validate] fails exactly on an empty command.  What it lets through
    has a command, a port other than 0 and an idle timeout other than 0,
    differs from what it was given only where a 0 stood, and passes
    [Validate] again unchanged. *)
Theorem Validate_normalises :
  forall o,
    (Command o = "" <-> Validate o = Err "command is required") /\
    (forall o',
        Validate o = Ok o' ->
        Command o' = Command o /\ Command o' <> "" /\
        StartupDelay o' = StartupDelay o /\
        upstreamProcess o' = upstreamProcess o /\
        Port o' <> 0 /\ IdleTimeout o' <> 0 /\
        (Port o <> 0 -> Port o' = Port o) /\
        (Port o = 0 -> Port o' = -1) /\
        (IdleTimeout o <> 0 -> IdleTimeout o' = IdleTimeout o) /\
        (IdleTimeout o = 0 -> IdleTimeout o' = 300 * Second) /\
        Validate o' = Ok o').
Proof.
  intros o. unfold Validate.
  destruct (String.eqb (Command o) "") eqn:Hc.
  - apply String.eqb_eq in Hc. split; [tauto|]. intros o' H. discriminate H.
  - assert (Hc' : Command o <> "") by (apply String.eqb_neq; exact Hc).
    split.
    + split; [contradiction|intros H; discriminate H].
    + intros o' H. inversion H; subst o'; clear H. cbn. rewrite Hc.
      destruct (Port o =? 0) eqn:Hp; destruct (IdleTimeout o =? 0) eqn:Hi;
        cbn; rewrite ?Hp, ?Hi;
        rewrite ?Z.eqb_eq, ?Z.eqb_neq in *;
        repeat split; try (unfold Second; lia); try congruence.
Qed.

Lemma Validate_normalises_witness :
  Validate unset =
    Ok {| Command := "sleep 60"; StartupDelay := 0; Port := -1;
          IdleTimeout := 300 * Second; upstreamProcess := None |} /\
  Validate {| Command := "sleep 60"; StartupDelay := 0; Port := -1;
              IdleTimeout := 300 * Second; upstreamProcess := None |} =
    Ok {| Command := "sleep 60"; StartupDelay := 0; Port := -1;
          IdleTimeout := 300 * Second; upstreamProcess := None |}.
Proof.
  split; [reflexivity|].
  destruct (Validate_normalises unset) as [_ H].
  destruct (H _ eq_refl) as (_ & _ & _ & _ & _ & _ & _ & _ & _ & _ & Hagain).
  exact Hagain.
Defined.


(** ** What a call leaves as it was *)

Lemma GetUpstreams_unfold Sprintf E o w :
  let r := Start Sprintf E (the_process o (clock w)) w in
  GetUpstreams Sprintf E o w =
  if IsRunning (receiver r) then
    (Ok [ {| Dial := JoinHostPort "localhost" (Itoa (port (receiver r))) |} ],
     set_upstreamProcess
       (Some (set_lastActivity (clock (world_of r)) (receiver r))) o,
     world_of r)
  else
    (Err "no upstreams available",
     set_upstreamProcess (Some (receiver r)) o, world_of r).
Proof.
  unfold GetUpstreams, through, NewUpstreamProcess, LogActivity, time_Now,
    modify, gets, get, bind, ret, the_process, GetPort, value, receiver,
    world_of.
  destruct (upstreamProcess o) as [u|]; cbn.
  - destruct (Start Sprintf E u w) as [[r u1] w1]. cbn.
    destruct (IsRunning u1); reflexivity.
  - match goal with |- context [Start Sprintf E ?u w] =>
      destruct (Start Sprintf E u w) as [[r u1] w1] end.
    cbn. destruct (IsRunning u1); reflexivity.
Qed.

Lemma Cleanup_unfold E o w :
  Cleanup E o w =
  match upstreamProcess o with
  | Some u =>
      if IsRunning u then
        (None, set_upstreamProcess (Some (receiver (Stop E u w))) o,
         world_of (Stop E u w))
      else (None, o, w)
  | None => (None, o, w)
  end.
Proof.
  unfold Cleanup, through, get, bind, ret, receiver, world_of.
  destruct (upstreamProcess o) as [u|]; [|reflexivity].
  destruct (IsRunning u); [|reflexivity].
  destruct (Stop E u w) as [[r u1] w1]. reflexivity.
Qed.

Lemma idleMonitor_unfold E id u w :
  idleMonitor E id u w =
  if lastActivity u + idleTimeout u >? clock w then (tt, u, w)
  else (tt, receiver (Stop E u (record (EvIdleStop id) w)),
        retire id (world_of (Stop E u (record (EvIdleStop id) w)))).
Proof.
  unfold idleMonitor, time_Now, emit, exit, on_world, get, bind, ret,
    receiver, world_of.
  destruct (lastActivity u + idleTimeout u >? clock w); [reflexivity|].
  destruct (Stop E u (record (EvIdleStop id) w)) as [[r u1] w1]. reflexivity.
Qed.

Lemma graceKiller_unfold id u w :
  graceKiller id u w =
  match cmd u with
  | None => (tt, u, retire id w)
  | Some c =>
      match Process c with
      | None => (tt, u, crash w)
      | Some p => (tt, u, retire id (record (EvKill (Pid p)) w))
      end
  end.
Proof.
  unfold graceKiller, Process_Kill, emit, exit, panic, on_world, get, bind, ret.
  destruct (cmd u) as [c|]; [|reflexivity].
  destruct (Process c); reflexivity.
Qed.

(** What [Start] keeps: the configuration of the process object, a port
    that is set, the direction of the clock, the last activity behind the
    clock, the absence of a panic, and a handle with its process when the
    spawn succeeds. *)
Lemma Start_keeps Sprintf E u w :
  let r := Start Sprintf E u w in
  command (receiver r) = command u /\
  startupDelay (receiver r) = startupDelay u /\
  idleTimeout (receiver r) = idleTimeout u /\
  dir (receiver r) = dir u /\ env (receiver r) = env u /\
  terminationGracePeriod (receiver r) = terminationGracePeriod u /\
  (port u <> -1 -> port (receiver r) = port u) /\
  (port u <> -1 -> IsRunning (receiver r) = true) /\
  clock w <= clock (world_of r) /\
  (lastActivity u <= clock w ->
   lastActivity (receiver r) <= clock (world_of r)) /\
  panicked (world_of r) = panicked w /\
  ((forall c, cmd u = Some c -> Process c <> None) ->
   (forall e, start_result E <> Err e) ->
   forall c, cmd (receiver r) = Some c -> Process c <> None).
Proof.
  cbn zeta. exec.
  destruct (cmd u) as [c0|] eqn:Hcmd; cbn.
  - rewrite ?Hcmd. repeat split; auto; lia.
  - destruct (port u =? -1) eqn:Hp; cbn;
      [destruct (port_result E) as [p|e]; cbn|];
      try (destruct (start_result E) as [pid|e'] eqn:Hs; cbn;
           [destruct (startupDelay u >? 0); cbn|]);
      rewrite ?Hcmd;
      repeat split; auto; try lia;
      try (intros Hne; apply Z.eqb_eq in Hp; contradiction);
      try (intros _ _ c Hc; inversion Hc; subst; cbn; discriminate);
      try (intros _ Hok c Hc; exfalso; eapply Hok; reflexivity);
      try (intros _ _ c Hc; discriminate Hc).
Qed.

(** What [Stop] keeps: everything but the handle, which it clears or
    leaves, the direction of the clock, and, on a handle that has its
    process, the absence of a panic. *)
Lemma Stop_keeps E u w :
  let r := Stop E u w in
  command (receiver r) = command u /\
  startupDelay (receiver r) = startupDelay u /\
  idleTimeout (receiver r) = idleTimeout u /\
  dir (receiver r) = dir u /\ env (receiver r) = env u /\
  terminationGracePeriod (receiver r) = terminationGracePeriod u /\
  port (receiver r) = port u /\
  lastActivity (receiver r) = lastActivity u /\
  (cmd (receiver r) = None \/ cmd (receiver r) = cmd u) /\
  clock w <= clock (world_of r) /\
  ((forall c, cmd u = Some c -> Process c <> None) ->
   panicked (world_of r) = panicked w).
Proof.
  cbn zeta. exec.
  destruct (cmd u) as [c|] eqn:Hcmd; cbn.
  - destruct (Process c) as [p|] eqn:Hproc; cbn.
    + destruct (signal_result E); cbn; rewrite ?Hcmd; cbn;
        repeat split; auto; lia.
    + repeat split; auto; try lia.
      intros H. exfalso. apply (H c eq_refl). exact Hproc.
  - repeat split; auto; lia.
Qed.

Lemma step_unfold Sprintf c o w :
  step Sprintf c (o, w) =
  if panicked w then (o, w)
  else
    match c with
    | CallGetUpstreams E =>
        (receiver (GetUpstreams Sprintf E o w),
         world_of (GetUpstreams Sprintf E o w))
    | CallCleanup E => (receiver (Cleanup E o w), world_of (Cleanup E o w))
    | Wake id E =>
        match task_of id w, upstreamProcess o with
        | Some IdleMonitor, Some u =>
            (set_upstreamProcess (Some (receiver (idleMonitor E id u w))) o,
             world_of (idleMonitor E id u w))
        | Some GraceKiller, Some u =>
            (set_upstreamProcess (Some (receiver (graceKiller id u w))) o,
             world_of (graceKiller id u w))
        | _, _ => (o, w)
        end
    | Elapse d => (o, advance d w)
    end.
Proof.
  unfold step, through, receiver, world_of.
  destruct (panicked w); [reflexivity|].
  destruct c as [E|E|id E|d]; try reflexivity.
  - destruct (GetUpstreams Sprintf E o w) as [[r o'] w']. reflexivity.
  - destruct (Cleanup E o w) as [[r o'] w']. reflexivity.
  - destruct (task_of id w) as [[|]|]; try reflexivity;
      (destruct (upstreamProcess o) as [u|]; [|reflexivity]).
    + destruct (idleMonitor E id u w) as [[r u'] w']. reflexivity.
    + destruct (graceKiller id u w) as [[r u'] w']. reflexivity.
Qed.

Lemma run_invariant Sprintf (I : System -> Prop) (ok : Call -> bool) :
  (forall c s, ok c = true -> I s -> I (step Sprintf c s)) ->
  forall cs s, forallb ok cs = true -> I s -> I (run Sprintf cs s).
Proof.
  intros Hstep cs. induction cs as [|c cs IH]; intros s Hok Hs; [exact Hs|].
  change (run Sprintf (c :: cs) s) with (run Sprintf cs (step Sprintf c s)).
  cbn in Hok. apply andb_true_iff in Hok. destruct Hok as [Hc Hcs].
  apply IH; [exact Hcs|]. apply Hstep; assumption.
Qed.

Lemma forallb_always {A} (l : list A) : forallb (fun _ => true) l = true.
Proof. induction l; cbn; auto. Qed.

Lemma the_process_timely o w :
  timely (o, w) -> lastActivity (the_process o (clock w)) <= clock w.
Proof.
  unfold timely, the_process. cbn. intros H.
  destruct (upstreamProcess o) as [u|]; [apply H; reflexivity|cbn; lia].
Qed.

(** The process object is the one it was. *)
Ltac same_process Hs Hu :=
  let u0 := fresh "u" in
  let H := fresh "H" in
  cbn; intros u0 H; rewrite ?Hu in H; try discriminate H;
  try (inversion H; subst u0; clear H);
  first [ apply Hs; congruence | exact (Hs _ eq_refl) | eapply Hs; eauto ].

Lemma step_timely Sprintf c s :
  timely s ->
  timely (step Sprintf c s) /\ clock (snd s) <= clock (snd (step Sprintf c s)).
Proof.
  destruct s as [o w]. intros Hs. rewrite step_unfold.
  pose proof (the_process_timely o w Hs) as Hfirst.
  unfold timely in *. cbn [fst snd] in *.
  destruct (panicked w); [split; [exact Hs|cbn; lia]|].
  destruct c as [E|E|id E|d].
  - rewrite GetUpstreams_unfold. cbn zeta.
    pose proof (Start_keeps Sprintf E (the_process o (clock w)) w) as HS.
    cbn zeta in HS.
    destruct HS as (_ & _ & _ & _ & _ & _ & _ & _ & Hclock & Hlast & _).
    specialize (Hlast Hfirst).
    destruct (IsRunning _); cbn; (split; [|exact Hclock]);
      intros u Hu; inversion Hu; subst; cbn; lia.
  - rewrite Cleanup_unfold.
    destruct (upstreamProcess o) as [u|] eqn:Hu;
      [|split; [same_process Hs Hu|cbn; lia]].
    destruct (IsRunning u); [|split; [same_process Hs Hu|cbn; lia]].
    pose proof (Stop_keeps E u w) as HS. cbn zeta in HS.
    destruct HS as (_ & _ & _ & _ & _ & _ & _ & Hlast & _ & Hclock & _).
    cbn. split; [|exact Hclock].
    intros u' Hu'. inversion Hu'; subst. rewrite Hlast.
    specialize (Hs u eq_refl). lia.
  - destruct (task_of id w) as [[|]|];
      [| |split; [exact Hs|cbn; lia]];
      (destruct (upstreamProcess o) as [u|] eqn:Hu;
       [|split; [same_process Hs Hu|cbn; lia]]).
    + rewrite idleMonitor_unfold. specialize (Hs u eq_refl).
      destruct (lastActivity u + idleTimeout u >? clock w); cbn.
      * split; [|lia]. intros u' Hu'. inversion Hu'; subst. exact Hs.
      * pose proof (Stop_keeps E u (record (EvIdleStop id) w)) as HS.
        cbn zeta in HS.
        destruct HS as (_ & _ & _ & _ & _ & _ & _ & Hlast & _ & Hclock & _).
        cbn in Hclock. split; [|exact Hclock].
        intros u' Hu'. inversion Hu'; subst. rewrite Hlast. lia.
    + rewrite graceKiller_unfold. specialize (Hs u eq_refl).
      destruct (cmd u) as [c|]; [destruct (Process c)|]; cbn;
        (split; [|lia]); intros u' Hu'; inversion Hu'; subst; exact Hs.
  - cbn. split; [|lia]. intros u Hu. specialize (Hs u Hu). lia.
Qed.

(** ** The clock and the last activity *)

(** X2. Along any run the clock does not go back, and if the last activity
    of the supervisor was not in the future before the run, it is not in
    the future after it. *)
Theorem lastActivity_never_in_the_future :
  forall Sprintf cs s,
    timely s ->
    timely (run Sprintf cs s) /\
    clock (snd s) <= clock (snd (run Sprintf cs s)).
Proof.
  intros Sprintf cs. induction cs as [|c cs IH]; intros s Hs.
  - cbn. split; [exact Hs|lia].
  - change (run Sprintf (c :: cs) s) with (run Sprintf cs (step Sprintf c s)).
    destruct (step_timely Sprintf c s Hs) as [Hs' Hc].
    destruct (IH _ Hs') as [Hs'' Hc']. split; [exact Hs''|lia].
Qed.

Lemma lastActivity_witness :
  timely (hosting, watched Second) /\
  let s := run plainSprintf
             [CallGetUpstreams obliging; Elapse Second; CallCleanup obliging;
              CallGetUpstreams obliging_again]
             (hosting, watched Second) in
  timely s /\ Second <= clock (snd s).
Proof.
  assert (H : timely (hosting, watched Second)).
  { intros u Hu. inversion Hu; subst. cbn. unfold Second. lia. }
  split; [exact H|].
  exact (lastActivity_never_in_the_future plainSprintf _ _ H).
Defined.


(** ** A request in two parts *)

Lemma GetUpstreams_Start_unfold Sprintf E o w :
  let r := Start Sprintf E (the_process o (clock w)) w in
  GetUpstreams_Start Sprintf E o w =
  (tt, set_upstreamProcess (Some (receiver r)) o, world_of r).
Proof.
  unfold GetUpstreams_Start, through, NewUpstreamProcess, time_Now, get,
    bind, ret, the_process, receiver, world_of.
  destruct (upstreamProcess o) as [u|]; cbn.
  - destruct (Start Sprintf E u w) as [[r u1] w1]. reflexivity.
  - match goal with |- context [Start Sprintf E ?u w] =>
      destruct (Start Sprintf E u w) as [[r u1] w1] end.
    reflexivity.
Qed.

Lemma answer_unfold u w :
  answer u w =
  if IsRunning u then
    (Ok [ {| Dial := JoinHostPort "localhost" (Itoa (port u)) |} ],
     set_lastActivity (clock w) u, w)
  else (Err "no upstreams available", u, w).
Proof.
  unfold answer, LogActivity, time_Now, modify, gets, bind, ret, GetPort.
  destruct (IsRunning u); reflexivity.
Qed.

Lemma turn_unfold Sprintf t o w :
  turn Sprintf t (o, w) =
  match t with
  | Whole c => step Sprintf c (o, w)
  | Started E =>
      if panicked w then (o, w)
      else
        (set_upstreamProcess
           (Some (receiver (Start Sprintf E (the_process o (clock w)) w))) o,
         world_of (Start Sprintf E (the_process o (clock w)) w))
  | Answered =>
      if panicked w then (o, w)
      else
        match upstreamProcess o with
        | Some u =>
            if IsRunning u then
              (set_upstreamProcess (Some (set_lastActivity (clock w) u)) o, w)
            else (set_upstreamProcess (Some u) o, w)
        | None => (o, crash w)
        end
  end.
Proof.
  unfold turn. cbn [fst snd]. destruct t as [c|E|]; [reflexivity| |].
  - rewrite GetUpstreams_Start_unfold. reflexivity.
  - destruct (panicked w); [reflexivity|].
    destruct (upstreamProcess o) as [u|]; [|reflexivity].
    rewrite answer_unfold. destruct (IsRunning u); reflexivity.
Qed.

(** The two parts, run one after the other with nothing in between, are
    the call, and the answer of the second part is its answer. *)
Lemma GetUpstreams_in_two_parts Sprintf E o w :
  panicked w = false ->
  let s1 := turn Sprintf (Started E) (o, w) in
  turns Sprintf [Started E; Answered] (o, w) =
    step Sprintf (CallGetUpstreams E) (o, w) /\
  exists u1, upstreamProcess (fst s1) = Some u1 /\
             value (answer u1 (snd s1)) = value (GetUpstreams Sprintf E o w).
Proof.
  intros Hlive. cbn zeta.
  change (turns Sprintf [Started E; Answered] (o, w))
    with (turn Sprintf Answered (turn Sprintf (Started E) (o, w))).
  rewrite (turn_unfold Sprintf (Started E)), Hlive.
  rewrite step_unfold, Hlive, GetUpstreams_unfold. cbn zeta.
  pose proof (Start_keeps Sprintf E (the_process o (clock w)) w) as HS.
  cbn zeta in HS.
  destruct HS as (_ & _ & _ & _ & _ & _ & _ & _ & _ & _ & Kp & _).
  rewrite turn_unfold, Kp, Hlive. cbn [fst snd upstreamProcess set_upstreamProcess].
  split.
  - destruct (IsRunning _); reflexivity.
  - eexists. split; [reflexivity|]. rewrite answer_unfold.
    destruct (IsRunning _); reflexivity.
Qed.

Lemma turns_invariant Sprintf (I : System -> Prop) (ok : Turn -> bool) :
  (forall t s, ok t = true -> I s -> I (turn Sprintf t s)) ->
  forall ts s, forallb ok ts = true -> I s -> I (turns Sprintf ts s).
Proof.
  intros Hturn ts. induction ts as [|t ts IH]; intros s Hok Hs; [exact Hs|].
  change (turns Sprintf (t :: ts) s) with (turns Sprintf ts (turn Sprintf t s)).
  cbn in Hok. apply andb_true_iff in Hok. destruct Hok as [Ht Hts].
  apply IH; [exact Hts|]. apply Hturn; assumption.
Qed.

(** ** The configuration along a run *)

Lemma the_process_configured o0 o w :
  configured o0 (o, w) ->
  let u := the_process o (clock w) in
  command u = Command o0 /\ startupDelay u = StartupDelay o0 /\
  idleTimeout u = IdleTimeout o0 /\ (Port o0 <> -1 -> port u = Port o0).
Proof.
  unfold configured, the_process. cbn. intros (Hc & Hd & Hp & Hi & Hu).
  destruct (upstreamProcess o) as [u|]; [apply Hu; reflexivity|].
  cbn. repeat split; auto.
Qed.

Lemma configured_with o0 o w u' w' :
  configured o0 (o, w) ->
  (command u' = Command o0 /\ startupDelay u' = StartupDelay o0 /\
   idleTimeout u' = IdleTimeout o0 /\ (Port o0 <> -1 -> port u' = Port o0)) ->
  configured o0 (set_upstreamProcess (Some u') o, w').
Proof.
  intros (Hc & Hd & Hp & Hi & _) Hu'. unfold configured. cbn in *.
  split; [exact Hc|split; [exact Hd|split; [exact Hp|split; [exact Hi|]]]].
  intros u0 Hu0. inversion Hu0; subst. exact Hu'.
Qed.

Lemma step_configured Sprintf o0 c s :
  configured o0 s -> configured o0 (step Sprintf c s).
Proof.
  destruct s as [o w]. intros Hall. rewrite step_unfold.
  pose proof (the_process_configured o0 o w Hall) as Hfirst.
  cbn zeta in Hfirst.
  assert (Hs : forall u, upstreamProcess o = Some u ->
                 command u = Command o0 /\ startupDelay u = StartupDelay o0 /\
                 idleTimeout u = IdleTimeout o0 /\
                 (Port o0 <> -1 -> port u = Port o0))
    by (destruct Hall as (_ & _ & _ & _ & H); exact H).
  destruct (panicked w); [exact Hall|].
  destruct c as [E|E|id E|d].
  - rewrite GetUpstreams_unfold. cbn zeta.
    pose proof (Start_keeps Sprintf E (the_process o (clock w)) w) as HS.
    cbn zeta in HS.
    destruct HS as (K1 & K2 & K3 & _ & _ & _ & K7 & _).
    destruct Hfirst as (F1 & F2 & F3 & F7).
    destruct (IsRunning _); cbn; apply (configured_with o0 o w); try exact Hall;
      cbn; (split; [congruence|split; [congruence|split; [congruence|]]]);
      intros Hfix; rewrite K7; auto; rewrite F7; auto.
  - rewrite Cleanup_unfold.
    destruct (upstreamProcess o) as [u|] eqn:Hu; [|exact Hall].
    destruct (IsRunning u); [|exact Hall].
    pose proof (Stop_keeps E u w) as HS. cbn zeta in HS.
    destruct HS as (K1 & K2 & K3 & _ & _ & _ & K7 & _).
    destruct (Hs u eq_refl) as (F1 & F2 & F3 & F7).
    cbn. apply (configured_with o0 o w); [exact Hall|].
    split; [congruence|split; [congruence|split; [congruence|]]].
    intros Hfix. rewrite K7. auto.
  - destruct (task_of id w) as [[|]|]; [| |exact Hall];
      (destruct (upstreamProcess o) as [u|] eqn:Hu; [|exact Hall]);
      destruct (Hs u eq_refl) as (F1 & F2 & F3 & F7).
    + rewrite idleMonitor_unfold.
      destruct (lastActivity u + idleTimeout u >? clock w); cbn.
      * apply (configured_with o0 o w); [exact Hall|tauto].
      * pose proof (Stop_keeps E u (record (EvIdleStop id) w)) as HS.
        cbn zeta in HS.
        destruct HS as (K1 & K2 & K3 & _ & _ & _ & K7 & _).
        apply (configured_with o0 o w); [exact Hall|].
        split; [congruence|split; [congruence|split; [congruence|]]].
        intros Hfix. rewrite K7. auto.
    + rewrite graceKiller_unfold.
      destruct (cmd u) as [c|]; [destruct (Process c)|]; cbn;
        apply (configured_with o0 o w); try exact Hall; tauto.
  - exact Hall.
Qed.

Lemma turn_configured Sprintf o0 t s :
  configured o0 s -> configured o0 (turn Sprintf t s).
Proof.
  destruct s as [o w]. intros Hall. rewrite turn_unfold.
  destruct t as [c|E|]; [apply step_configured, Hall| |].
  - destruct (panicked w); [exact Hall|].
    pose proof (the_process_configured o0 o w Hall) as Hfirst.
    cbn zeta in Hfirst. destruct Hfirst as (F1 & F2 & F3 & F7).
    pose proof (Start_keeps Sprintf E (the_process o (clock w)) w) as HS.
    cbn zeta in HS.
    destruct HS as (K1 & K2 & K3 & _ & _ & _ & K7 & _).
    apply (configured_with o0 o w); [exact Hall|].
    split; [congruence|split; [congruence|split; [congruence|]]].
    intros Hfix. rewrite K7; auto. rewrite F7; auto.
  - destruct (panicked w); [exact Hall|].
    destruct (upstreamProcess o) as [u|] eqn:Hu.
    + assert (Hs : command u = Command o0 /\ startupDelay u = StartupDelay o0 /\
                   idleTimeout u = IdleTimeout o0 /\
                   (Port o0 <> -1 -> port u = Port o0))
        by (destruct Hall as (_ & _ & _ & _ & H); apply H; exact Hu).
      destruct (IsRunning u); apply (configured_with o0 o w);
        try exact Hall; exact Hs.
    + destruct Hall as (Hc & Hd & Hp & Hi & H). unfold configured. cbn in *.
      tauto.
Qed.

(** X3. With a fixed port configured, the port of the process object is
    the configured port in every state that requests, the two parts of
    requests taking turns with everything else, shutdowns, goroutines and
    lapses of time lead to; so whenever the second part of a request, or a
    whole request, gives an address, it is the configured port on
    localhost.  The process object keeps the command, the startup delay
    and the idle timeout of the configuration as well. *)
Theorem fixed_port_is_the_port_dialled :
  forall Sprintf ts o t,
    upstreamProcess o = None ->
    Port o <> -1 ->
    let s := turns Sprintf ts (o, boot t) in
    configured o s /\
    (forall u,
        upstreamProcess (fst s) = Some u ->
        port u = Port o /\
        forall w' ups,
          value (answer u w') = Ok ups ->
          ups = [ {| Dial := JoinHostPort "localhost" (Itoa (Port o)) |} ]) /\
    (forall E ups,
        value (GetUpstreams Sprintf E (fst s) (snd s)) = Ok ups ->
        ups = [ {| Dial := JoinHostPort "localhost" (Itoa (Port o)) |} ]).
Proof.
  intros Sprintf ts o t Hnil Hfix s.
  assert (Hs : configured o s).
  { apply (turns_invariant Sprintf (configured o) (fun _ => true)).
    - intros t0 s0 _. apply turn_configured.
    - apply forallb_always.
    - unfold configured. cbn. rewrite Hnil.
      repeat split; auto; discriminate. }
  split; [exact Hs|]. destruct s as [o' w]. cbn [fst snd]. split.
  - intros u Hu. destruct Hs as (_ & _ & _ & _ & Hs). cbn in Hs.
    destruct (Hs u Hu) as (_ & _ & _ & Hport). specialize (Hport Hfix).
    split; [exact Hport|]. intros w' ups. rewrite answer_unfold.
    destruct (IsRunning u); cbn; intros H; inversion H. rewrite Hport.
    reflexivity.
  - intros E ups.
    pose proof (the_process_configured o o' w Hs) as Hfirst.
    cbn zeta in Hfirst. destruct Hfirst as (_ & _ & _ & Hport).
    specialize (Hport Hfix).
    rewrite GetUpstreams_unfold. cbn zeta.
    pose proof (Start_keeps Sprintf E (the_process o' (clock w)) w) as HS.
    cbn zeta in HS.
    destruct HS as (_ & _ & _ & _ & _ & _ & K7 & _).
    destruct (IsRunning _); cbn; intros H; inversion H.
    rewrite K7 by congruence. rewrite Hport. reflexivity.
Qed.

Lemma fixed_port_witness :
  let s := turns plainSprintf
             [Started no_spawn; Whole (Elapse Second); Started obliging;
              Whole (CallCleanup obliging); Answered; Answered]
             (sleeper, boot 0) in
  configured sleeper s /\
  (forall u, upstreamProcess (fst s) = Some u -> port u = 9999) /\
  (forall ups,
      value (GetUpstreams plainSprintf no_port (fst s) (snd s)) = Ok ups ->
      ups = [ {| Dial := "localhost:9999" |} ]).
Proof.
  destruct (fixed_port_is_the_port_dialled plainSprintf
              [Started no_spawn; Whole (Elapse Second); Started obliging;
               Whole (CallCleanup obliging); Answered; Answered]
              sleeper 0 eq_refl) as (H1 & H2 & H3).
  - cbn. discriminate.
  - split; [exact H1|split].
    + intros u Hu. apply (H2 u Hu).
    + intros ups. apply (H3 no_port ups).
Defined.

(** ** Panics *)

Lemma step_sane Sprintf c s :
  spawn_ok c = true ->
  sane (fst s) /\ panicked (snd s) = false ->
  sane (fst (step Sprintf c s)) /\ panicked (snd (step Sprintf c s)) = false.
Proof.
  destruct s as [o w]. cbn [fst snd]. intros Hok [Hs Hp].
  rewrite step_unfold, Hp.
  assert (Hnew : forall u',
             (forall c, cmd u' = Some c -> Process c <> None) ->
             sane (set_upstreamProcess (Some u') o)).
  { intros u' Hu' u0 c0 Hu0. cbn in Hu0. inversion Hu0; subst. apply Hu'. }
  assert (Hold : forall u, upstreamProcess o = Some u ->
                           forall c, cmd u = Some c -> Process c <> None).
  { intros u Hu c0. apply (Hs u c0 Hu). }
  destruct c as [E|E|id E|d].
  - rewrite GetUpstreams_unfold. cbn zeta.
    pose proof (Start_keeps Sprintf E (the_process o (clock w)) w) as HS.
    cbn zeta in HS.
    destruct HS as (_ & _ & _ & _ & _ & _ & _ & _ & _ & _ & Kp & Kh).
    assert (Hfirst : forall c, cmd (the_process o (clock w)) = Some c ->
                               Process c <> None).
    { unfold the_process. destruct (upstreamProcess o) as [u|] eqn:Hu.
      - apply (Hold u eq_refl).
      - cbn. discriminate. }
    assert (Hspawn : forall e, start_result E <> Err e).
    { cbn in Hok. destruct (start_result E); [discriminate|discriminate Hok]. }
    specialize (Kh Hfirst Hspawn).
    destruct (IsRunning _); cbn; (split; [|congruence]); apply Hnew; cbn;
      exact Kh.
  - rewrite Cleanup_unfold.
    destruct (upstreamProcess o) as [u|] eqn:Hu; [|cbn; split; assumption].
    destruct (IsRunning u); [|cbn; split; assumption].
    pose proof (Stop_keeps E u w) as HS. cbn zeta in HS.
    destruct HS as (_ & _ & _ & _ & _ & _ & _ & _ & Kc & _ & Kp).
    cbn. split; [|rewrite Kp; [exact Hp|apply (Hold u eq_refl)]].
    apply Hnew. intros c Hc.
    destruct Kc as [Kc|Kc]; [congruence|].
    rewrite Kc in Hc. apply (Hold u eq_refl c Hc).
  - destruct (task_of id w) as [[|]|]; [| |cbn; split; assumption];
      (destruct (upstreamProcess o) as [u|] eqn:Hu; [|cbn; split; assumption]).
    + rewrite idleMonitor_unfold.
      destruct (lastActivity u + idleTimeout u >? clock w); cbn.
      * split; [|exact Hp]. apply Hnew, (Hold u eq_refl).
      * pose proof (Stop_keeps E u (record (EvIdleStop id) w)) as HS.
        cbn zeta in HS.
        destruct HS as (_ & _ & _ & _ & _ & _ & _ & _ & Kc & _ & Kp).
        split; [|rewrite Kp; [exact Hp|apply (Hold u eq_refl)]].
        apply Hnew. intros c Hc.
        destruct Kc as [Kc|Kc]; [congruence|].
        rewrite Kc in Hc. apply (Hold u eq_refl c Hc).
    + rewrite graceKiller_unfold.
      destruct (cmd u) as [c|] eqn:Hc; [destruct (Process c) eqn:Hproc|]; cbn.
      * split; [|exact Hp]. apply Hnew, (Hold u eq_refl).
      * exfalso. apply (Hold u eq_refl c Hc). exact Hproc.
      * split; [|exact Hp]. apply Hnew, (Hold u eq_refl).
  - cbn. split; assumption.
Qed.

Lemma turn_sane Sprintf t s :
  spawns t = true -> sane (fst s) -> sane (fst (turn Sprintf t s)).
Proof.
  destruct s as [o w]. cbn [fst]. intros Hok Hs.
  destruct (panicked w) eqn:Hp.
  - rewrite turn_unfold. destruct t as [c|E|];
      [rewrite step_unfold|..]; rewrite Hp; exact Hs.
  - rewrite turn_unfold, Hp. destruct t as [c|E|].
    + apply (step_sane Sprintf c (o, w) Hok). split; [exact Hs|exact Hp].
    + pose proof (Start_keeps Sprintf E (the_process o (clock w)) w) as HS.
      cbn zeta in HS.
      destruct HS as (_ & _ & _ & _ & _ & _ & _ & _ & _ & _ & _ & Kh).
      cbn [fst]. intros u0 c0 Hu0. cbn in Hu0. inversion Hu0; subst.
      apply Kh.
      * unfold the_process. destruct (upstreamProcess o) as [u|] eqn:Hu.
        -- intros c1. apply (Hs u c1 Hu).
        -- cbn. discriminate.
      * cbn in Hok. destruct (start_result E); [discriminate|discriminate Hok].
    + destruct (upstreamProcess o) as [u|] eqn:Hu; [|exact Hs].
      assert (Hu_sane : forall c1, cmd u = Some c1 -> Process c1 <> None)
        by (intros c1; apply (Hs u c1 Hu)).
      destruct (IsRunning u); cbn [fst]; intros u0 c0 Hu0; cbn in Hu0;
        inversion Hu0; subst u0; cbn; apply Hu_sane.
Qed.

(** X4. [Stop] meets a handle without process only after a spawn has
    failed.  As long as every [cmd.Start] succeeds, a handle that [Start]
    or [Stop] has left behind has its process, in every state that
    requests, their two parts taking turns with everything else,
    shutdowns, goroutines and lapses of time lead to; so [Stop], called
    from [Cleanup] or by an idle watcher, does not panic there, whatever
    the signals, the waits and the port allocator answer.  (The goroutine
    of the grace period reads the handle without the lock and is not
    spoken of.) *)
Theorem Stop_finds_the_process_while_spawns_succeed :
  forall Sprintf ts o t,
    upstreamProcess o = None ->
    forallb spawns ts = true ->
    let s := turns Sprintf ts (o, boot t) in
    sane (fst s) /\
    forall E u,
      upstreamProcess (fst s) = Some u ->
      panicked (world_of (Stop E u (snd s))) = panicked (snd s).
Proof.
  intros Sprintf ts o t Hnil Hok s.
  assert (H : sane (fst s)).
  { apply (turns_invariant Sprintf (fun s => sane (fst s)) spawns).
    - intros t0 s0. apply turn_sane.
    - exact Hok.
    - cbn. unfold sane. rewrite Hnil. discriminate. }
  split; [exact H|]. intros E u Hu.
  pose proof (Stop_keeps E u (snd s)) as HS. cbn zeta in HS.
  destruct HS as (_ & _ & _ & _ & _ & _ & _ & _ & _ & _ & Kp).
  apply Kp. intros c. apply (H u c Hu).
Qed.

Lemma Stop_finds_the_process_witness :
  let s := turns plainSprintf
             [Started obliging; Whole (Elapse Second); Whole (Wake 0 no_signal);
              Started obliging_again; Whole (CallCleanup no_reap); Answered;
              Whole (CallGetUpstreams no_port)]
             (server, boot 0) in
  sane (fst s) /\
  forall E u,
    upstreamProcess (fst s) = Some u ->
    panicked (world_of (Stop E u (snd s))) = panicked (snd s).
Proof.
  exact (Stop_finds_the_process_while_spawns_succeed plainSprintf
           [Started obliging; Whole (Elapse Second); Whole (Wake 0 no_signal);
            Started obliging_again; Whole (CallCleanup no_reap); Answered;
            Whole (CallGetUpstreams no_port)]
           server 0 eq_refl eq_refl).
Defined.

(** X5. After a request whose spawn failed, the shutdown of the host
    panics: [Cleanup] finds the handle left by the failed [Start], and
    [Stop] signals through its nil process. *)
Theorem Cleanup_after_failed_spawn_panics :
  forall Sprintf E1 E2 o w e,
    upstreamProcess o = None ->
    Port o <> -1 ->
    panicked w = false ->
    start_result E1 = Err e ->
    let s := run Sprintf [CallGetUpstreams E1; CallCleanup E2] (o, w) in
    panicked (snd s) = true /\
    added w (snd s) = [EvCmdStart ["sh"; "-c"; getFormattedCommand Sprintf
                                     (the_process o (clock w))]].
Proof.
  intros Sprintf E1 E2 o w e Hnil Hfix Hlive Hspawn s; subst s.
  apply Z.eqb_neq in Hfix.
  unfold run, fold_left, step. rewrite Hlive.
  unfold the_process. rewrite Hnil.
  exec. rewrite Hnil. cbn. rewrite Hfix. cbn. rewrite Hspawn. cbn.
  rewrite Hlive. cbn. added_events. auto.
Qed.

Lemma Cleanup_after_failed_spawn_witness :
  let s := run plainSprintf [CallGetUpstreams no_spawn; CallCleanup obliging]
             (sleeper, boot 0) in
  panicked (snd s) = true /\
  added (boot 0) (snd s) = [EvCmdStart ["sh"; "-c"; "sleep 60"]].
Proof.
  refine (Cleanup_after_failed_spawn_panics plainSprintf no_spawn obliging
            sleeper (boot 0) _ eq_refl _ eq_refl eq_refl).
  cbn. discriminate.
Defined.


(** ** Requests without a port *)







(** The condition of X6 is needed: with a fixed port and every spawn
    succeeding, a request gets the error when the shutdown comes between
    its two parts. *)
Example error_after_a_Stop_in_between :
  let s := turns plainSprintf [Started obliging; Whole (CallCleanup obliging)]
             (sleeper, boot 0) in
  option_map (fun u => value (answer u (snd s))) (upstreamProcess (fst s))
  = Some (Err "no upstreams available").
Proof. reflexivity. Qed.

(** X7. A request that found no port leaves nothing behind that would keep
    the next one from trying: when the allocator then gives a port and the
    spawn succeeds, the next request calls the allocator again, spawns, and
    is answered with that port. *)
Theorem GetUpstreams_retries_after_allocation_failure :
  forall Sprintf E1 E2 o w e p pid,
    upstreamProcess o = None ->
    Port o = -1 ->
    port_result E1 = Err e ->
    port_result E2 = Ok p ->
    start_result E2 = Ok pid ->
    let r1 := GetUpstreams Sprintf E1 o w in
    let r2 := GetUpstreams Sprintf E2 (receiver r1) (world_of r1) in
    value r1 = Err "no upstreams available" /\
    value r2 = Ok [ {| Dial := JoinHostPort "localhost" (Itoa p) |} ] /\
    existsb is_alloc (added (world_of r1) (world_of r2)) = true /\
    existsb is_spawn (added (world_of r1) (world_of r2)) = true /\
    exists u c, upstreamProcess (receiver r2) = Some u /\ port u = p /\
                cmd u = Some c /\ Process c = Some {| Pid := pid |}.
Proof.
  intros Sprintf E1 E2 o w e p pid Hnil Hauto H1 H2 H3 r1 r2; subst r1 r2.
  exec. rewrite Hnil. cbn. rewrite Hauto. cbn. rewrite H1. cbn.
  rewrite H2. cbn. rewrite H3. cbn.
  destruct (StartupDelay o >? 0); cbn; added_events;
    (repeat split; auto); eexists _, _; repeat split; reflexivity.
Qed.

Lemma GetUpstreams_retries_witness :
  let r1 := GetUpstreams plainSprintf no_port server (boot 0) in
  let r2 := GetUpstreams plainSprintf obliging (receiver r1) (world_of r1) in
  value r1 = Err "no upstreams available" /\
  value r2 = Ok [ {| Dial := "localhost:40001" |} ] /\
  existsb is_alloc (added (world_of r1) (world_of r2)) = true /\
  existsb is_spawn (added (world_of r1) (world_of r2)) = true /\
  exists u c, upstreamProcess (receiver r2) = Some u /\ port u = 40001 /\
              cmd u = Some c /\ Process c = Some {| Pid := 4242 |}.
Proof.
  exact (GetUpstreams_retries_after_allocation_failure plainSprintf no_port
           obliging server (boot 0) _ 40001 4242
           eq_refl eq_refl eq_refl eq_refl eq_refl).
Defined.


(** ** Shutting down twice *)

(** X8. When the signal of a shutdown is delivered, or there is nothing to
    signal, a second shutdown changes nothing. *)
Theorem Cleanup_twice :
  forall Sprintf E1 E2 s,
    signal_result E1 = None ->
    run Sprintf [CallCleanup E1; CallCleanup E2] s =
    step Sprintf (CallCleanup E1) s.
Proof.
  intros Sprintf E1 E2 [o w] Hsig.
  change (run Sprintf [CallCleanup E1; CallCleanup E2] (o, w))
    with (step Sprintf (CallCleanup E2) (step Sprintf (CallCleanup E1) (o, w))).
  rewrite (step_unfold Sprintf (CallCleanup E1)).
  destruct (panicked w) eqn:Hp.
  - rewrite step_unfold, Hp. reflexivity.
  - rewrite Cleanup_unfold.
    destruct (upstreamProcess o) as [u|] eqn:Hu.
    + destruct (IsRunning u) eqn:Hrun.
      * unfold IsRunning in Hrun. destruct (cmd u) as [c|] eqn:Hc; [|discriminate].
        rewrite step_unfold, Cleanup_unfold.
        exec. rewrite Hc. cbn.
        destruct (Process c) as [q|]; cbn; [|reflexivity].
        rewrite Hsig. cbn. rewrite Hc. cbn. rewrite Hp. reflexivity.
      * unfold receiver, world_of. cbn [fst snd].
        rewrite step_unfold, Hp, Cleanup_unfold, Hu, Hrun. reflexivity.
    + unfold receiver, world_of. cbn [fst snd].
      rewrite step_unfold, Hp, Cleanup_unfold, Hu. reflexivity.
Qed.

Lemma Cleanup_twice_witness :
  run plainSprintf [CallCleanup obliging; CallCleanup no_signal]
    (hosting, watched Second) =
  step plainSprintf (CallCleanup obliging) (hosting, watched Second).
Proof.
  exact (Cleanup_twice plainSprintf obliging no_signal
           (hosting, watched Second) eq_refl).
Defined.


(** ** Activity and the idle window *)

(** X9. A request on the fast path opens the idle window anew: a watcher
    that wakes less than the idle timeout after the request leaves the
    process running and stays in the pool, however long the supervisor had
    been idle before the request. *)
Theorem activity_keeps_the_process_alive :
  forall Sprintf E E' o u w d id,
    upstreamProcess o = Some u ->
    IsRunning u = true ->
    panicked w = false ->
    task_of id w = Some IdleMonitor ->
    0 <= d < idleTimeout u ->
    let s := run Sprintf [CallGetUpstreams E; Elapse d; Wake id E'] (o, w) in
    s = (set_upstreamProcess (Some (set_lastActivity (clock w) u)) o,
         advance d w) /\
    option_map IsRunning (upstreamProcess (fst s)) = Some true /\
    task_of id (snd s) = Some IdleMonitor.
Proof.
  intros Sprintf E E' o u w d id Hu Hrun Hlive Htask Hd s.
  assert (Hs : s = (set_upstreamProcess (Some (set_lastActivity (clock w) u)) o,
                    advance d w)).
  { subst s. unfold IsRunning in Hrun.
    destruct (cmd u) as [c|] eqn:Hc; [|discriminate].
    unfold run, fold_left, step. rewrite Hlive.
    exec. rewrite Hu. cbn. repeat (rewrite Hc; cbn).
    rewrite Hlive. unfold task_of in *. cbn. rewrite Htask.
    replace (clock w + idleTimeout u >? clock w + Z.max 0 d) with true
      by (symmetry; rewrite Z.gtb_ltb; apply Z.ltb_lt; lia).
    reflexivity. }
  rewrite Hs. split; [reflexivity|]. unfold IsRunning in *. cbn.
  destruct (cmd u); [|discriminate]. split; [reflexivity|exact Htask].
Qed.

Lemma activity_witness :
  let s := run plainSprintf
             [CallGetUpstreams obliging; Elapse (9 * Second); Wake 0 obliging]
             (hosting, watched (3600 * Second)) in
  s = (set_upstreamProcess
         (Some (set_lastActivity (3600 * Second) busy)) hosting,
       advance (9 * Second) (watched (3600 * Second))) /\
  option_map IsRunning (upstreamProcess (fst s)) = Some true /\
  task_of 0 (snd s) = Some IdleMonitor.
Proof.
  refine (activity_keeps_the_process_alive plainSprintf obliging obliging
            hosting busy (watched (3600 * Second)) (9 * Second) 0%nat
            eq_refl eq_refl eq_refl eq_refl _).
  cbn. unfold Second. lia.
Defined.


(** X10. Idle stop and restart.  When a watcher wakes after the idle window
    has closed and the signal is delivered, the supervisor is stopped; the
    next request, if its spawn succeeds, runs a new process under a new
    handle, on the port of the old one, and is answered with that port. *)
Theorem idle_stop_then_restart :
  forall Sprintf E1 E2 o u w c p id pid,
    upstreamProcess o = Some u ->
    cmd u = Some c ->
    Process c = Some p ->
    port u <> -1 ->
    panicked w = false ->
    task_of id w = Some IdleMonitor ->
    lastActivity u + idleTimeout u <= clock w ->
    signal_result E1 = None ->
    start_result E2 = Ok pid ->
    let s1 := step Sprintf (Wake id E1) (o, w) in
    let r := GetUpstreams Sprintf E2 (fst s1) (snd s1) in
    option_map IsRunning (upstreamProcess (fst s1)) = Some false /\
    panicked (snd s1) = false /\
    value r = Ok [ {| Dial := JoinHostPort "localhost" (Itoa (port u)) |} ] /\
    existsb is_spawn (added (snd s1) (world_of r)) = true /\
    existsb is_alloc (added (snd s1) (world_of r)) = false /\
    exists u' c', upstreamProcess (receiver r) = Some u' /\
                  port u' = port u /\ cmd u' = Some c' /\
                  Process c' = Some {| Pid := pid |}.
Proof.
  intros Sprintf E1 E2 o u w c p id pid Hu Hc Hproc Hport Hlive Htask Hidle
    Hsig Hspawn s1 r; subst s1 r.
  apply Z.eqb_neq in Hport.
  unfold step. rewrite Hlive, Htask, Hu.
  exec.
  replace (lastActivity u + idleTimeout u >? clock w) with false
    by (symmetry; rewrite Z.gtb_ltb; apply Z.ltb_ge; lia).
  cbn. rewrite Hc. cbn. rewrite Hproc. cbn. rewrite Hsig. cbn.
  rewrite Hc. cbn. rewrite Hport. cbn. rewrite Hspawn. cbn.
  destruct (startupDelay u >? 0); cbn; added_events;
    (repeat split; auto); eexists _, _; repeat split; reflexivity.
Qed.

Lemma idle_stop_then_restart_witness :
  let s1 := step plainSprintf (Wake 0 obliging)
              (hosting, watched (11 * Second)) in
  let r := GetUpstreams plainSprintf obliging_again (fst s1) (snd s1) in
  option_map IsRunning (upstreamProcess (fst s1)) = Some false /\
  panicked (snd s1) = false /\
  value r = Ok [ {| Dial := "localhost:9999" |} ] /\
  existsb is_spawn (added (snd s1) (world_of r)) = true /\
  existsb is_alloc (added (snd s1) (world_of r)) = false /\
  exists u' c', upstreamProcess (receiver r) = Some u' /\
                port u' = 9999 /\ cmd u' = Some c' /\
                Process c' = Some {| Pid := 4243 |}.
Proof.
  refine (idle_stop_then_restart plainSprintf obliging obliging_again
            hosting busy (watched (11 * Second)) _ _ 0%nat 4243
            eq_refl eq_refl eq_refl _ eq_refl eq_refl _ eq_refl eq_refl).
  - cbn. discriminate.
  - cbn. unfold Second. lia.
Defined.


(** ** Counting the idle watchers *)

Lemma NoDup_fst_filter {A} (f : nat * A -> bool) (l : list (nat * A)) :
  NoDup (map fst l) -> NoDup (map fst (filter f l)).
Proof.
  induction l as [|g l IH]; cbn; intros H; [exact H|].
  inversion H as [|x xs Hnot Hrest]; subst.
  destruct (f g); cbn; [|auto].
  constructor; [|auto].
  intros Hin. apply Hnot. apply in_map_iff in Hin.
  destruct Hin as (g' & Hg' & Hin). apply filter_In in Hin.
  apply in_map_iff. exists g'. tauto.
Qed.

Lemma filter_out_absent {A} (id : nat) (l : list (nat * A)) :
  ~ In id (map fst l) ->
  filter (fun g => negb (Nat.eqb (fst g) id)) l = l.
Proof.
  induction l as [|g l IH]; cbn; intros H; [reflexivity|].
  destruct (Nat.eqb (fst g) id) eqn:Hg.
  - apply Nat.eqb_eq in Hg. exfalso. apply H. left. exact Hg.
  - cbn. rewrite IH; [reflexivity|]. intros Hin. apply H. right. exact Hin.
Qed.

(** Taking the goroutine [id] out of a pool of distinct ids takes out one
    watcher if [id] is a watcher, and none otherwise. *)
Lemma monitors_without (id : nat) (l : list (nat * Task)) :
  NoDup (map fst l) ->
  (List.length (filter is_monitor
                  (filter (fun g => negb (Nat.eqb (fst g) id)) l))
   + match option_map snd (find (fun g => Nat.eqb (fst g) id) l) with
     | Some IdleMonitor => 1
     | _ => 0
     end
   = List.length (filter is_monitor l))%nat.
Proof.
  induction l as [|g l IH]; cbn; intros H; [reflexivity|].
  inversion H as [|x xs Hnot Hrest]; subst.
  destruct (Nat.eqb (fst g) id) eqn:Hg; cbn.
  - apply Nat.eqb_eq in Hg. subst id.
    rewrite filter_out_absent by exact Hnot.
    destruct g as [i [|]]; cbn; lia.
  - specialize (IH Hrest). destruct (is_monitor g); cbn; lia.
Qed.

Lemma balanced_record k e w :
  is_any_idle_stop e = false -> is_go_monitor e = false ->
  balanced k w -> balanced k (record e w).
Proof.
  intros Hs Hg (Hnd & Hb & Hc). unfold balanced, monitors, all_idle_stops,
    launched in *. cbn. repeat split; auto.
  rewrite !filter_app, !length_app. cbn. rewrite Hs, Hg. cbn. lia.
Qed.

Lemma balanced_idle_stop k id w :
  balanced k w -> balanced (S k) (record (EvIdleStop id) w).
Proof.
  intros (Hnd & Hb & Hc). unfold balanced, monitors, all_idle_stops,
    launched in *. cbn. repeat split; auto.
  rewrite !filter_app, !length_app. cbn. lia.
Qed.

Lemma balanced_advance k d w : balanced k w -> balanced k (advance d w).
Proof. intros H. exact H. Qed.

Lemma balanced_crash k w : balanced k w -> balanced k (crash w).
Proof. intros H. exact H. Qed.

Lemma balanced_launch k t w : balanced k w -> balanced k (launch t w).
Proof.
  intros (Hnd & Hb & Hc). unfold balanced, monitors, all_idle_stops,
    launched in *. cbn. repeat split.
  - rewrite map_app. cbn. apply NoDup_app; [exact Hnd|repeat constructor; intros []|].
    intros x Hx [Hy|[]]. subst x. apply in_map_iff in Hx.
    destruct Hx as (g & Hg & Hin). specialize (Hb g Hin). lia.
  - intros g Hin. apply in_app_or in Hin. destruct Hin as [Hin|[<-|[]]].
    + specialize (Hb g Hin). lia.
    + cbn. lia.
  - rewrite !filter_app, !length_app. destruct t; cbn; lia.
Qed.

Lemma balanced_retire_monitor k id w :
  task_of id w = Some IdleMonitor ->
  balanced (S k) w -> balanced k (retire id w).
Proof.
  intros Htask (Hnd & Hb & Hc). unfold balanced, monitors, all_idle_stops,
    launched, task_of in *. cbn. repeat split.
  - apply NoDup_fst_filter, Hnd.
  - intros g Hin. apply filter_In in Hin. apply Hb, Hin.
  - pose proof (monitors_without id (goroutines w) Hnd) as Hm.
    rewrite Htask in Hm.
    rewrite !filter_app, !length_app. cbn. lia.
Qed.

Lemma balanced_retire_other k id w :
  task_of id w <> Some IdleMonitor ->
  balanced k w -> balanced k (retire id w).
Proof.
  intros Htask (Hnd & Hb & Hc). unfold balanced, monitors, all_idle_stops,
    launched, task_of in *. cbn. repeat split.
  - apply NoDup_fst_filter, Hnd.
  - intros g Hin. apply filter_In in Hin. apply Hb, Hin.
  - pose proof (monitors_without id (goroutines w) Hnd) as Hm.
    destruct (option_map snd _) as [[|]|]; [congruence| |];
      rewrite !filter_app, !length_app; cbn; lia.
Qed.

Create HintDb accounts.

#[export] Hint Resolve balanced_record balanced_advance balanced_crash
  balanced_launch : accounts.

Lemma Start_balanced Sprintf E u w k :
  balanced k w -> balanced k (world_of (Start Sprintf E u w)).
Proof.
  intros Hw. exec_calls.
  destruct (cmd u); cbn; auto with accounts.
  destruct (port u =? -1); cbn;
    [destruct (port_result E); cbn; auto with accounts|];
    (destruct (start_result E); cbn; auto with accounts);
    (destruct (startupDelay u >? 0); cbn; auto 10 with accounts).
Qed.

Lemma Stop_balanced E u w k :
  balanced k w -> balanced k (world_of (Stop E u w)).
Proof.
  intros Hw. exec_calls.
  destruct (cmd u) as [c|] eqn:Hc; cbn; auto with accounts.
  destruct (Process c) as [p|]; cbn; auto with accounts.
  destruct (signal_result E); cbn; auto with accounts.
  rewrite Hc. cbn. auto 10 with accounts.
Qed.

Lemma step_balanced Sprintf c s :
  balanced 0 (snd s) -> balanced 0 (snd (step Sprintf c s)).
Proof.
  destruct s as [o w]. cbn [snd]. intros Hw. rewrite step_unfold.
  destruct (panicked w); [exact Hw|].
  destruct c as [E|E|id E|d].
  - destruct (GetUpstreams_through_Start Sprintf E o w) as [Hworld _].
    cbn [snd]. rewrite Hworld. apply Start_balanced, Hw.
  - rewrite Cleanup_unfold.
    destruct (upstreamProcess o) as [u|]; [|exact Hw].
    destruct (IsRunning u); [|exact Hw].
    cbn. apply Stop_balanced, Hw.
  - destruct (task_of id w) as [[|]|] eqn:Htask; [| |exact Hw];
      (destruct (upstreamProcess o) as [u|]; [|exact Hw]).
    + rewrite idleMonitor_unfold.
      destruct (lastActivity u + idleTimeout u >? clock w); [exact Hw|].
      cbn. apply balanced_retire_monitor.
      * pose proof (Stop_benign E u (record (EvIdleStop id) w))
          as (_ & _ & Hkeep & _).
        rewrite Hkeep; [exact Htask|].
        destruct Hw as (_ & Hb & _). cbn.
        apply task_of_In, Hb in Htask. exact Htask.
      * apply Stop_balanced, balanced_idle_stop, Hw.
    + rewrite graceKiller_unfold.
      destruct (cmd u) as [c|]; [destruct (Process c)|]; cbn.
      * apply balanced_retire_other;
          [change (task_of id (record (EvKill (Pid o0)) w)) with (task_of id w);
           congruence|].
        apply balanced_record; auto.
      * exact Hw.
      * apply balanced_retire_other; [congruence|exact Hw].
  - exact Hw.
Qed.

(** X11. No idle watcher is lost and none leaves by another way than its
    own call of [Stop]: after any run from the start of the program, the
    watchers in the pool and the calls of [Stop] by watchers add up to the
    watchers launched, and the goroutines of the pool have distinct ids. *)
Theorem idle_watchers_accounted_for :
  forall Sprintf cs o t,
    let w := snd (run Sprintf cs (o, boot t)) in
    (monitors w + all_idle_stops w = launched w)%nat /\
    NoDup (map fst (goroutines w)).
Proof.
  intros Sprintf cs o t w.
  assert (H : balanced 0 w).
  { subst w.
    apply (run_invariant Sprintf (fun s => balanced 0 (snd s)) (fun _ => true)).
    - intros c s _. apply step_balanced.
    - apply forallb_always.
    - cbn. repeat split; [constructor|intros g []]. }
  destruct H as (Hnd & _ & Hc). split; [lia|exact Hnd].
Qed.

(** ** The grace-period goroutine *)

Lemma find_app_none {A} (f : A -> bool) (l l' : list A) :
  (forall x, In x l -> f x = false) -> find f (l ++ l') = find f l'.
Proof.
  induction l as [|a l IH]; cbn; intros H; [reflexivity|].
  rewrite (H a) by (left; reflexivity). apply IH.
  intros x Hx. apply H. right. exact Hx.
Qed.

(** X12. The goroutine that [Stop] launches looks at the supervisor when it
    wakes, not at the process it was launched for.  If the process has been
    stopped and a request has started a new one in the meantime, the
    goroutine of the old termination kills the new process; the handle
    stays, so the supervisor goes on taking the process for running. *)
Theorem stale_graceKiller_kills_the_new_process :
  forall Sprintf E1 E2 E3 o u w c p pid,
    upstreamProcess o = Some u ->
    cmd u = Some c ->
    Process c = Some p ->
    port u <> -1 ->
    panicked w = false ->
    (forall g, In g (goroutines w) -> (fst g < next_id w)%nat) ->
    signal_result E1 = None ->
    start_result E2 = Ok pid ->
    let s2 := run Sprintf [CallCleanup E1; CallGetUpstreams E2] (o, w) in
    let s3 := step Sprintf (Wake (next_id w) E3) s2 in
    task_of (next_id w) (snd s2) = Some GraceKiller /\
    added (snd s2) (snd s3) = [EvKill pid; EvExit (next_id w)] /\
    fst s3 = fst s2 /\
    option_map IsRunning (upstreamProcess (fst s3)) = Some true /\
    panicked (snd s3) = false.
Proof.
  intros Sprintf E1 E2 E3 o u w c p pid Hu Hc Hproc Hport Hlive Hpool Hsig
    Hspawn s2 s3.
  apply Z.eqb_neq in Hport.
  assert (Hfresh : forall x, In x (goroutines w) ->
                             Nat.eqb (fst x) (next_id w) = false).
  { intros x Hx. apply Nat.eqb_neq. specialize (Hpool x Hx). lia. }
  assert (Htask : task_of (next_id w) (snd s2) = Some GraceKiller).
  { subst s2. unfold run, fold_left, step. rewrite Hlive.
    exec. rewrite Hu. cbn. repeat (rewrite Hc; cbn).
    rewrite Hproc. cbn. rewrite Hsig. cbn. rewrite Hc. cbn.
    rewrite Hlive. cbn. rewrite Hport. cbn. rewrite Hspawn. cbn.
    unfold task_of.
    destruct (startupDelay u >? 0); cbn;
      rewrite <- app_assoc, find_app_none by exact Hfresh;
      cbn; rewrite Nat.eqb_refl; reflexivity. }
  split; [exact Htask|].
  subst s3.
  destruct s2 as [o2 w2] eqn:Hs2. cbn [fst snd] in *.
  assert (Hstate : panicked w2 = false /\
                   exists u2 c2, upstreamProcess o2 = Some u2 /\
                                 cmd u2 = Some c2 /\
                                 Process c2 = Some {| Pid := pid |}).
  { unfold s2, run, fold_left, step in Hs2. rewrite Hlive in Hs2.
    revert Hs2. exec. rewrite Hu. cbn. repeat (rewrite Hc; cbn).
    rewrite Hproc. cbn. rewrite Hsig. cbn. rewrite Hc. cbn.
    rewrite Hlive. cbn. rewrite Hport. cbn. rewrite Hspawn. cbn.
    destruct (startupDelay u >? 0); cbn; intros Hs2; inversion Hs2; subst;
      cbn; (split; [first [exact Hlive|reflexivity]|]);
      eexists _, _; repeat split; reflexivity. }
  destruct Hstate as (Hlive2 & u2 & c2 & Hu2 & Hc2 & Hp2).
  assert (Hsame : set_upstreamProcess (Some u2) o2 = o2).
  { destruct o2. cbn in *. rewrite Hu2. reflexivity. }
  rewrite step_unfold, Hlive2, Htask, Hu2, graceKiller_unfold, Hc2, Hp2.
  unfold receiver, world_of. cbn [fst snd]. rewrite Hsame, Hu2.
  unfold added, retire, record, IsRunning. cbn. added_events.
  rewrite Hc2. auto.
Qed.

Lemma stale_graceKiller_witness :
  let s2 := run plainSprintf
              [CallCleanup obliging; CallGetUpstreams obliging_again]
              (hosting, watched Second) in
  let s3 := step plainSprintf (Wake 1 obliging) s2 in
  task_of 1 (snd s2) = Some GraceKiller /\
  added (snd s2) (snd s3) = [EvKill 4243; EvExit 1] /\
  fst s3 = fst s2 /\
  option_map IsRunning (upstreamProcess (fst s3)) = Some true /\
  panicked (snd s3) = false.
Proof.
  refine (stale_graceKiller_kills_the_new_process plainSprintf obliging
            obliging_again obliging hosting busy (watched Second) _ _ 4243
            eq_refl eq_refl eq_refl _ eq_refl _ eq_refl eq_refl).
  - cbn. discriminate.
  - cbn. intros g [<-|[]]. cbn. lia.
Defined.


(** ** Percent signs in the command *)

Lemma append_assoc (a b c : string) : (a ++ b) ++ c = a ++ b ++ c.
Proof. induction a as [|x a IH]; cbn; [reflexivity|rewrite IH; reflexivity]. Qed.

Lemma append_empty (a : string) : a ++ "" = a.
Proof. induction a as [|x a IH]; cbn; [reflexivity|rewrite IH; reflexivity]. Qed.

Lemma doPrintf_plain :
  forall s n a,
    hasByte "%" s = false -> doPrintf s n a = Some (s ++ extra n a).
Proof.
  intros s n a Hs.
  rewrite <- (append_empty s) at 1.
  rewrite doPrintf_plain_prefix by exact Hs. reflexivity.
Qed.

(** X16. With a placeholder in the command, a doubled percent sign reaches
    the shell as a single one; the placeholder becomes the port. *)
Theorem doubled_percent_with_placeholder :
  forall other u a b c,
    command u = a ++ "%%" ++ b ++ "%d" ++ c ->
    hasByte "%" a = false ->
    hasByte "%" b = false ->
    hasByte "%" c = false ->
    getFormattedCommand (Go.Sprintf other) u =
      a ++ "%" ++ b ++ Itoa (port u) ++ c.
Proof.
  intros other u a b c Hcmd Ha Hb Hc. unfold getFormattedCommand.
  assert (Hin : Contains (command u) "%d" = true).
  { rewrite Hcmd.
    replace (a ++ "%%" ++ b ++ "%d" ++ c) with ((a ++ "%%" ++ b) ++ "%d" ++ c)
      by (rewrite !append_assoc; reflexivity).
    apply Contains_placeholder. }
  rewrite Hin, Hcmd. unfold Go.Sprintf.
  rewrite doPrintf_plain_prefix by exact Ha.
  change (doPrintf ("%%" ++ b ++ "%d" ++ c) 0 (port u))
    with (option_map (String "%") (doPrintf (b ++ "%d" ++ c) 0 (port u))).
  rewrite doPrintf_plain_prefix by exact Hb.
  change (doPrintf ("%d" ++ c) 0 (port u))
    with (option_map (append (Itoa (port u))) (doPrintf c 1 (port u))).
  rewrite doPrintf_plain by exact Hc. cbn.
  rewrite append_empty. reflexivity.
Qed.

Lemma doubled_percent_witness :
  getFormattedCommand plainSprintf
    (template_of "date +%%s; serve --http :%d --quiet" 8080)
  = "date +%s; serve --http :" ++ Itoa 8080 ++ " --quiet".
Proof.
  exact (doubled_percent_with_placeholder (fun format _ => format)
           (template_of "date +%%s; serve --http :%d --quiet" 8080)
           "date +" "s; serve --http :" " --quiet"
           eq_refl eq_refl eq_refl eq_refl).
Defined.

(** X17. A doubled percent sign followed by a d is taken for the
    placeholder by the test of [getFormattedCommand] and for an escaped
    percent sign by the formatter: nothing is substituted, and the command
    reaches the shell with the formatter's note on the unused port at its
    end. *)
Theorem doubled_percent_before_d :
  forall other u a b,
    command u = a ++ "%%d" ++ b ->
    hasByte "%" a = false ->
    hasByte "%" b = false ->
    getFormattedCommand (Go.Sprintf other) u =
      a ++ "%d" ++ b ++ "%!(EXTRA int=" ++ Itoa (port u) ++ ")".
Proof.
  intros other u a b Hcmd Ha Hb. unfold getFormattedCommand.
  assert (Hin : Contains (command u) "%d" = true).
  { rewrite Hcmd.
    replace (a ++ "%%d" ++ b) with ((a ++ "%") ++ "%d" ++ b)
      by (rewrite append_assoc; reflexivity).
    apply Contains_placeholder. }
  rewrite Hin, Hcmd. unfold Go.Sprintf.
  rewrite doPrintf_plain_prefix by exact Ha.
  change (doPrintf ("%%d" ++ b) 0 (port u))
    with (option_map (String "%") (doPrintf ("d" ++ b) 0 (port u))).
  rewrite (doPrintf_plain ("d" ++ b)) by (cbn; exact Hb).
  reflexivity.
Qed.

Lemma doubled_percent_before_d_witness :
  getFormattedCommand plainSprintf (template_of "date +%%d" 8080)
  = "date +%d" ++ "%!(EXTRA int=" ++ Itoa 8080 ++ ")".
Proof.
  exact (doubled_percent_before_d (fun format _ => format)
           (template_of "date +%%d" 8080) "date +" ""
           eq_refl eq_refl eq_refl).
Defined.
